(** * Inventory system: a shallow embedding of [inventory_system.py]

    The Python module keeps an inventory in a [dict] from item names to
    quantities, mutates it in place, reports through the [logging] module
    and persists it as a JSON file.  The embedding keeps that shape: Python
    objects are a small universe of dynamically typed values, the objects
    the functions mutate live in a [world], and every function is a
    computation in a state-and-exception monad, so that an exception leaves
    behind exactly the mutations made before it was raised. *)

From stdpp Require Import base option list strings gmap.
From Stdlib Require Import ZArith Ascii String Lia.
From Stdlib Require DecimalString DecimalFacts DecimalPos DecimalZ.

Local Set Warnings "-register-all".
Local Open Scope string_scope.
Local Open Scope list_scope.
Local Open Scope Z_scope.

(** ** Python values *)

(** The universe of values: what [json.load] can produce, floats excepted
    (floating point is outside this development).  A [str] is a sequence of
    code points below 256; a [dict] keeps its insertion order and has [str]
    keys, as every JSON object has. *)
Inductive value : Type :=
| VNone
| VBool (b : bool)
| VInt (n : Z)
| VStr (s : string)
| VList (xs : list value)
| VDict (kvs : list (string * value)).

Definition dict : Type := list (string * value).

Inductive exn : Type :=
| KeyError
| TypeError
| ValueError
| FileNotFoundError
| IsADirectoryError
| JSONDecodeError.

(** [Outside] marks a run that needs a value outside the universe above
    (a float, a code point above 255); nothing is claimed about such runs. *)
Inductive outcome (A : Type) : Type :=
| Return (a : A)
| Raise (e : exn)
| Outside.
Arguments Return {A} a.
Arguments Raise {A} e.
Arguments Outside {A}.

#[export] Instance outcome_ret : MRet outcome := @Return.
#[export] Instance outcome_bind : MBind outcome := fun A B f m =>
  match m with
  | Return a => f a
  | Raise e => Raise e
  | Outside => Outside
  end.

(** [isinstance(v, str)] *)
Definition isinstance_str (v : value) : bool :=
  match v with VStr _ => true | _ => false end.

(** [isinstance(v, int)]: [bool] is a subclass of [int]. *)
Definition isinstance_int (v : value) : bool :=
  match v with VInt _ | VBool _ => true | _ => false end.

(** The integer an [int] instance denotes ([True] is 1, [False] is 0). *)
Definition as_int (v : value) : option Z :=
  match v with
  | VInt n => Some n
  | VBool b => Some (if b then 1 else 0)
  | _ => None
  end.

(** [bool(v)], as [not v] uses it. *)
Definition truthy (v : value) : bool :=
  match v with
  | VNone => false
  | VBool b => b
  | VInt n => negb (n =? 0)
  | VStr s => negb (String.eqb s "")
  | VList xs => match xs with [] => false | _ => true end
  | VDict kvs => match kvs with [] => false | _ => true end
  end.

(** Only immutable values hash; a [list] or a [dict] used as a key raises. *)
Definition hashable (v : value) : bool :=
  match v with VList _ | VDict _ => false | _ => true end.

(** ** The dict operations the module uses *)

Fixpoint dict_lookup (k : string) (d : dict) : option value :=
  match d with
  | [] => None
  | (k', v) :: d' => if String.eqb k k' then Some v else dict_lookup k d'
  end.

(** [d[k] = v]: an existing key keeps its place, a new one goes last. *)
Fixpoint dict_store (k : string) (v : value) (d : dict) : dict :=
  match d with
  | [] => [(k, v)]
  | (k', v') :: d' =>
      if String.eqb k k' then (k', v) :: d' else (k', v') :: dict_store k v d'
  end.

(** [del d[k]] *)
Fixpoint dict_remove (k : string) (d : dict) : dict :=
  match d with
  | [] => []
  | (k', v') :: d' =>
      if String.eqb k k' then dict_remove k d' else (k', v') :: dict_remove k d'
  end.

Definition dict_keys (d : dict) : list string := map fst d.

(** A Python dict holds each key once. *)
Definition dict_wf (d : dict) : Prop := NoDup (dict_keys d).

(** ** Arithmetic and comparison *)

(** [a + b] *)
Definition py_add (a b : value) : outcome value :=
  match as_int a, as_int b with
  | Some x, Some y => Return (VInt (x + y))
  | _, _ =>
      match a, b with
      | VStr s, VStr t => Return (VStr (String.append s t))
      | VList xs, VList ys => Return (VList (xs ++ ys))
      | _, _ => Raise TypeError
      end
  end.

(** [a - b] *)
Definition py_sub (a b : value) : outcome value :=
  match as_int a, as_int b with
  | Some x, Some y => Return (VInt (x - y))
  | _, _ => Raise TypeError
  end.

(** [a == b]; it never raises on these values. *)
Fixpoint py_eq (a b : value) : bool :=
  match a, b with
  | VNone, VNone => true
  | VStr s, VStr t => String.eqb s t
  | VList xs, VList ys =>
      (fix all2 (xs ys : list value) : bool :=
         match xs, ys with
         | [], [] => true
         | x :: xs', y :: ys' => py_eq x y && all2 xs' ys'
         | _, _ => false
         end) xs ys
  | VDict d, VDict e =>
      (Nat.eqb (List.length d) (List.length e)) &&
      (fix sub (d : list (string * value)) : bool :=
         match d with
         | [] => true
         | (k, v) :: d' =>
             match dict_lookup k e with
             | Some w => py_eq v w && sub d'
             | None => false
             end
         end) d
  | (VInt _ | VBool _), (VInt _ | VBool _) =>
      match as_int a, as_int b with
      | Some x, Some y => x =? y
      | _, _ => false
      end
  | _, _ => false
  end.

(** The three-way order behind [<] and [<=]: integers by value, strings by
    code point, lists by their first unequal elements, anything else is
    unorderable. *)
Fixpoint py_compare (a b : value) : outcome comparison :=
  match a, b with
  | VStr s, VStr t => Return (String.compare s t)
  | VList xs, VList ys =>
      (fix lex (xs ys : list value) : outcome comparison :=
         match xs, ys with
         | [], [] => Return Eq
         | [], _ :: _ => Return Lt
         | _ :: _, [] => Return Gt
         | x :: xs', y :: ys' =>
             if py_eq x y then lex xs' ys' else py_compare x y
         end) xs ys
  | (VInt _ | VBool _), (VInt _ | VBool _) =>
      match as_int a, as_int b with
      | Some x, Some y => Return (x ?= y)
      | _, _ => Raise TypeError
      end
  | _, _ => Raise TypeError
  end.

(** [a < b] *)
Definition py_lt (a b : value) : outcome bool :=
  c ← py_compare a b;
  mret (match c with Lt => true | _ => false end).

(** [a <= b] *)
Definition py_le (a b : value) : outcome bool :=
  c ← py_compare a b;
  mret (match c with Gt => false | _ => true end).

(** ** JSON text, as [json.dump(..., indent=4)] writes it and [json.load]
    reads it *)

Definition text : Type := list ascii.
Definition chars (s : string) : text := list_ascii_of_string s.

Definition dquote : ascii := "034"%char.
Definition backslash : ascii := "092"%char.
Definition newline : ascii := "010"%char.

Definition is_digit (c : ascii) : bool :=
  let n := N_of_ascii c in ((48 <=? n) && (n <=? 57))%N.

(** *** Integers as text *)

(** The decimal digits of an integer, after a minus sign when it is
    negative. *)
Definition decimal (n : Z) : text :=
  chars (DecimalString.NilZero.string_of_int (Z.to_int n)).

(** [sys.get_int_max_str_digits()]: the interpreter's default, which the
    module leaves as it is.  Turning an [int] into text, or text into an
    [int], raises [ValueError] when more digits than this are involved. *)
Definition max_str_digits : nat := 4300%nat.

Definition digit_count (t : text) : nat :=
  List.length (List.filter is_digit t).

(** Whether [int.__repr__] succeeds, and with it [str(n)] and the [{n}] of
    an f-string. *)
Definition int_fits (n : Z) : bool :=
  (digit_count (decimal n) <=? max_str_digits)%nat.

(** The least magnitude with more than [max_str_digits] digits. *)
Definition str_limit : Z := 10 ^ Z.of_nat max_str_digits.

(** Whether [str(v)] succeeds: a list or a dict renders its members, so one
    int that does not fit anywhere inside makes it raise [ValueError]. *)
Fixpoint renders (v : value) : bool :=
  match v with
  | VInt n => int_fits n
  | VList xs =>
      (fix all (xs : list value) : bool :=
         match xs with
         | [] => true
         | x :: xs' => renders x && all xs'
         end) xs
  | VDict kvs =>
      (fix all (kvs : list (string * value)) : bool :=
         match kvs with
         | [] => true
         | (_, x) :: kvs' => renders x && all kvs'
         end) kvs
  | _ => true
  end.

(** *** Encoding *)

Definition hex_digit (n : N) : ascii :=
  match n with
  | 0 => "0" | 1 => "1" | 2 => "2" | 3 => "3" | 4 => "4" | 5 => "5"
  | 6 => "6" | 7 => "7" | 8 => "8" | 9 => "9" | 10 => "a" | 11 => "b"
  | 12 => "c" | 13 => "d" | 14 => "e" | _ => "f"
  end%N%char.

(** One character of a string under [ensure_ascii]: the quote and the
    backslash are escaped, the five short escapes are used, printable ASCII
    stays and everything else becomes [\u00xx]. *)
Definition escape_char (c : ascii) : text :=
  let n := N_of_ascii c in
  if (n =? 34)%N then [backslash; dquote]
  else if (n =? 92)%N then [backslash; backslash]
  else if (n =? 10)%N then [backslash; "n"%char]
  else if (n =? 13)%N then [backslash; "r"%char]
  else if (n =? 9)%N then [backslash; "t"%char]
  else if (n =? 8)%N then [backslash; "b"%char]
  else if (n =? 12)%N then [backslash; "f"%char]
  else if ((32 <=? n) && (n <=? 126))%N then [c]
  else [backslash; "u"%char; "0"%char; "0"%char;
        hex_digit (n / 16); hex_digit (n mod 16)].

Fixpoint escape (s : string) : text :=
  match s with
  | EmptyString => []
  | String c s' => escape_char c ++ escape s'
  end.

Definition encode_str (s : string) : text :=
  dquote :: escape s ++ [dquote].

Definition newline_indent (level : nat) : text :=
  newline :: repeat " "%char (4 * level).

(** The encoder of [json.dump(obj, f, indent=4)] yields chunks, each
    written to the file as it comes.  A function of the encoder gives the
    chunks it yields, joined, and whether it ran to its end: it stops, with
    [ValueError], at the first int that does not fit, with the chunks before
    it written. *)
Section Loops.
(** [_iterencode] one level further in, and the separator of that level. *)
Variable encode_member : value → text * bool.
Variable separator : text.

(** The loop of [_iterencode_list]; [buf] is the opening bracket or the
    separator.  It is part of the chunk of an element that is no container,
    and is lost with it; before a container it is a chunk of its own. *)
Fixpoint iterencode_elements (buf : text) (xs : list value) : text * bool :=
  match xs with
  | [] => ([], true)
  | x :: xs' =>
      let (t, ok) := encode_member x in
      let chunks :=
        match x with
        | VList _ | VDict _ => buf ++ t
        | _ => if ok then buf ++ t else []
        end in
      if ok then
        let (more, ok') := iterencode_elements separator xs' in
        (chunks ++ more, ok')
      else (chunks, false)
  end.

(** The loop of [_iterencode_dict]: the separator, the key and the colon
    are chunks of their own. *)
Fixpoint iterencode_members (first : bool) (kvs : list (string * value))
  : text * bool :=
  match kvs with
  | [] => ([], true)
  | (k, x) :: kvs' =>
      let head :=
        (if first then [] else separator) ++ encode_str k ++ chars ": " in
      let (t, ok) := encode_member x in
      if ok then
        let (more, ok') := iterencode_members false kvs' in
        (head ++ t ++ more, ok')
      else (head ++ t, false)
  end.
End Loops.

(** [_iterencode]; [level] is the current indent level. *)
Fixpoint iterencode (level : nat) (v : value) : text * bool :=
  match v with
  | VNone => (chars "null", true)
  | VBool true => (chars "true", true)
  | VBool false => (chars "false", true)
  | VInt n => if int_fits n then (decimal n, true) else ([], false)
  | VStr s => (encode_str s, true)
  | VList xs =>
      match xs with
      | [] => (chars "[]", true)
      | _ :: _ =>
          let (body, complete) :=
            iterencode_elements (iterencode (S level))
              (chars "," ++ newline_indent (S level))
              (chars "[" ++ newline_indent (S level)) xs in
          if complete then (body ++ newline_indent level ++ chars "]", true)
          else (body, false)
      end
  | VDict kvs =>
      match kvs with
      | [] => (chars "{}", true)
      | _ :: _ =>
          let (body, complete) :=
            iterencode_members (iterencode (S level))
              (chars "," ++ newline_indent (S level)) true kvs in
          if complete then
            (chars "{" ++ newline_indent (S level) ++ body ++
             newline_indent level ++ chars "}", true)
          else (chars "{" ++ newline_indent (S level) ++ body, false)
      end
  end.

(** What [json.dump(obj, f, indent=4)] has written to [f] when it returns
    or raises, and whether it returns. *)
Definition json_dump_text (obj : value) : string :=
  string_of_list_ascii (iterencode 0 obj).1.

Definition json_dump_ok (obj : value) : bool := (iterencode 0 obj).2.

(** *** Decoding *)

Definition is_ws (c : ascii) : bool :=
  match c with
  | " " | "009" | "010" | "013" => true
  | _ => false
  end%char.

Fixpoint skip_ws (cs : text) : text :=
  match cs with
  | c :: cs' => if is_ws c then skip_ws cs' else cs
  | [] => []
  end.

Definition hex_value (c : ascii) : option N :=
  let n := N_of_ascii c in
  if ((48 <=? n) && (n <=? 57))%N then Some (n - 48)%N
  else if ((97 <=? n) && (n <=? 102))%N then Some (n - 87)%N
  else if ((65 <=? n) && (n <=? 70))%N then Some (n - 55)%N
  else None.

(** The code point of [\uXXXX]. *)
Definition hex4 (a b c d : ascii) : option N :=
  match hex_value a, hex_value b, hex_value c, hex_value d with
  | Some x, Some y, Some z, Some t => Some (((x * 16 + y) * 16 + z) * 16 + t)%N
  | _, _, _, _ => None
  end.

(** [scanstring] in strict mode, from just after the opening quote. *)
Fixpoint scan_string (cs : text) : outcome (string * text) :=
  match cs with
  | [] => Raise JSONDecodeError
  | c :: cs1 =>
      if Ascii.eqb c dquote then Return (EmptyString, cs1)
      else if Ascii.eqb c backslash then
        match cs1 with
        | [] => Raise JSONDecodeError
        | e :: cs2 =>
            let simple (ch : ascii) :=
              '(s, r) ← scan_string cs2; mret (String ch s, r) in
            if Ascii.eqb e dquote then simple dquote
            else if Ascii.eqb e backslash then simple backslash
            else
              match e with
              | "/" => simple "/"
              | "b" => simple "008"
              | "f" => simple "012"
              | "n" => simple "010"
              | "r" => simple "013"
              | "t" => simple "009"
              | "u" =>
                  match cs2 with
                  | h1 :: h2 :: h3 :: h4 :: cs3 =>
                      match hex4 h1 h2 h3 h4 with
                      | Some n =>
                          if (n <? 256)%N then
                            '(s, r) ← scan_string cs3;
                            mret (String (ascii_of_N n) s, r)
                          else Outside
                      | None => Raise JSONDecodeError
                      end
                  | _ => Raise JSONDecodeError
                  end
              | _ => Raise JSONDecodeError
              end%char
        end
      else if (N_of_ascii c <? 32)%N then Raise JSONDecodeError
      else '(s, r) ← scan_string cs1; mret (String c s, r)
  end.

Fixpoint span_digits (cs : text) : text * text :=
  match cs with
  | c :: cs' =>
      if is_digit c then
        let (ds, r) := span_digits cs' in (c :: ds, r)
      else ([], cs)
  | [] => ([], [])
  end.

(** The integer part of [NUMBER_RE]: an optional minus sign, then either a
    single zero or a digit from 1 to 9 followed by any digits. *)
Definition match_integer (cs : text) : option (text * text) :=
  let '(sign, cs1) :=
    match cs with
    | "-"%char :: r => (["-"%char], r)
    | _ => ([], cs)
    end in
  match cs1 with
  | c :: r =>
      if Ascii.eqb c "0" then Some (sign ++ [c], r)
      else if is_digit c then
        let (ds, r') := span_digits r in Some (sign ++ c :: ds, r')
      else None
  | [] => None
  end.

(** Whether the fraction or exponent group of [NUMBER_RE] matches: a dot
    and a digit, or [e]/[E], an optional sign and a digit.  The number is
    then a float. *)
Definition starts_fraction_or_exponent (cs : text) : bool :=
  match cs with
  | "."%char :: d :: _ => is_digit d
  | ("e" | "E")%char :: ("-" | "+")%char :: d :: _ => is_digit d
  | ("e" | "E")%char :: d :: _ => is_digit d
  | _ => false
  end.

(** [int(token)] for a token [match_integer] accepted: a token of more
    than [max_str_digits] digits raises [ValueError], which is no
    [JSONDecodeError]. *)
Definition int_of_token (token : text) : outcome value :=
  if (max_str_digits <? digit_count token)%nat then Raise ValueError
  else
    match DecimalString.NilZero.int_of_string (string_of_list_ascii token) with
    | Some d => Return (VInt (Z.of_int d))
    | None => Raise JSONDecodeError
    end.

Fixpoint strip_prefix (p cs : text) : option text :=
  match p, cs with
  | [], _ => Some cs
  | a :: p', c :: cs' => if Ascii.eqb a c then strip_prefix p' cs' else None
  | _ :: _, [] => None
  end.

(** [dict(pairs)]: a repeated key keeps its first place and its last
    value. *)
Definition dict_of_pairs (pairs : list (string * value)) : dict :=
  fold_left (fun d kv => dict_store kv.1 kv.2 d) pairs [].

(** [scan_once] with the object and array loops.  Every call consumes
    input, except that the array loop hands its input on to [scan_once], so
    [fuel] above twice the length of the text is never used up
    ([scan_once_fuel]). *)
Fixpoint scan_once (fuel : nat) (cs : text) : outcome (value * text) :=
  match fuel with
  | O => Outside
  | S fuel' =>
      match cs with
      | [] => Raise JSONDecodeError
      | c :: cs1 =>
          if Ascii.eqb c dquote then
            '(s, r) ← scan_string cs1; mret (VStr s, r)
          else if Ascii.eqb c "{" then
            match skip_ws cs1 with
            | c2 :: cs2 =>
                if Ascii.eqb c2 "}" then Return (VDict [], cs2)
                else if Ascii.eqb c2 dquote then object_members fuel' cs2 []
                else Raise JSONDecodeError
            | [] => Raise JSONDecodeError
            end
          else if Ascii.eqb c "[" then
            match skip_ws cs1 with
            | c2 :: cs2 =>
                if Ascii.eqb c2 "]" then Return (VList [], cs2)
                else array_elements fuel' (c2 :: cs2) []
            | [] => Raise JSONDecodeError
            end
          else
            match strip_prefix (chars "null") cs,
                  strip_prefix (chars "true") cs,
                  strip_prefix (chars "false") cs with
            | Some r, _, _ => Return (VNone, r)
            | _, Some r, _ => Return (VBool true, r)
            | _, _, Some r => Return (VBool false, r)
            | _, _, _ =>
                match match_integer cs with
                | Some (token, r) =>
                    if starts_fraction_or_exponent r then Outside
                    else v ← int_of_token token; mret (v, r)
                | None =>
                    match strip_prefix (chars "NaN") cs,
                          strip_prefix (chars "Infinity") cs,
                          strip_prefix (chars "-Infinity") cs with
                    | None, None, None => Raise JSONDecodeError
                    | _, _, _ => Outside
                    end
                end
            end
      end
  end
with object_members (fuel : nat) (cs : text) (pairs : list (string * value))
  : outcome (value * text) :=
  match fuel with
  | O => Outside
  | S fuel' =>
      '(key, cs1) ← scan_string cs;
      match skip_ws cs1 with
      | c2 :: cs2 =>
          if Ascii.eqb c2 ":" then
            '(v, cs3) ← scan_once fuel' (skip_ws cs2);
            let pairs := pairs ++ [(key, v)] in
            match skip_ws cs3 with
            | c4 :: cs4 =>
                if Ascii.eqb c4 "}" then
                  Return (VDict (dict_of_pairs pairs), cs4)
                else if Ascii.eqb c4 "," then
                  match skip_ws cs4 with
                  | c5 :: cs5 =>
                      if Ascii.eqb c5 dquote then object_members fuel' cs5 pairs
                      else Raise JSONDecodeError
                  | [] => Raise JSONDecodeError
                  end
                else Raise JSONDecodeError
            | [] => Raise JSONDecodeError
            end
          else Raise JSONDecodeError
      | [] => Raise JSONDecodeError
      end
  end
with array_elements (fuel : nat) (cs : text) (elems : list value)
  : outcome (value * text) :=
  match fuel with
  | O => Outside
  | S fuel' =>
      '(v, cs1) ← scan_once fuel' cs;
      let elems := elems ++ [v] in
      match skip_ws cs1 with
      | c2 :: cs2 =>
          if Ascii.eqb c2 "]" then Return (VList elems, cs2)
          else if Ascii.eqb c2 "," then array_elements fuel' (skip_ws cs2) elems
          else Raise JSONDecodeError
      | [] => Raise JSONDecodeError
      end
  end.

(** [json.load] on the text of a file: one value, white space around it
    and nothing else. *)
Definition json_loads (s : string) : outcome value :=
  let cs := chars s in
  '(v, r) ← scan_once (S (2 * List.length cs)) (skip_ws cs);
  match skip_ws r with
  | [] => Return v
  | _ :: _ => Raise JSONDecodeError
  end.

(** ** The world the functions run in *)

(** A message before rendering: literal text and the values or the
    exception that [%s] or an f-string field would render. *)
Inductive piece : Type :=
| Lit (s : string)
| Arg (v : value)
| Exc (e : exn).

Definition message : Type := list piece.

Inductive level : Type := INFO | WARNING | ERROR.

Record log_record : Type := LogRecord { levelname : level; msg : message }.

(** What a path names: a text file the process can read and write, held
    as its decoded text; a directory; or nothing yet, in a place where a
    file can be created.  A path the file system does not hold names
    nothing, and nothing can be created under it: its parent directory is
    missing. *)
Inductive node : Type :=
| File (content : string)
| Directory
| Vacant.

(** The objects a call can touch: the dict bound to [stock_data], the list
    bound to [logs] ([None] when the caller passes none), what [logging] and
    [print] have emitted, and the file system. *)
Record world : Type := World {
  stock_data : dict;
  logs : option (list message);
  logging : list log_record;
  stdout : list message;
  files : gmap string node }.

Definition set_stock_data (d : dict) (w : world) : world :=
  World d (logs w) (logging w) (stdout w) (files w).
Definition set_logs (l : option (list message)) (w : world) : world :=
  World (stock_data w) l (logging w) (stdout w) (files w).
Definition set_logging (l : list log_record) (w : world) : world :=
  World (stock_data w) (logs w) l (stdout w) (files w).
Definition set_stdout (l : list message) (w : world) : world :=
  World (stock_data w) (logs w) (logging w) l (files w).
Definition set_files (f : gmap string node) (w : world) : world :=
  World (stock_data w) (logs w) (logging w) (stdout w) f.

(** State and exceptions: a raised exception carries the world as the
    statements before it left it. *)
Definition M (A : Type) : Type := world → outcome A * world.

#[export] Instance M_ret : MRet M := fun A a w => (Return a, w).
#[export] Instance M_bind : MBind M := fun A B f m w =>
  match m w with
  | (Return a, w') => f a w'
  | (Raise e, w') => (Raise e, w')
  | (Outside, w') => (Outside, w')
  end.

Definition raise {A : Type} (e : exn) : M A := fun w => (Raise e, w).
Definition lift {A : Type} (o : outcome A) : M A := fun w => (o, w).
Definition gets {A : Type} (f : world → A) : M A := fun w => (Return (f w), w).
Definition modify (f : world → world) : M unit := fun w => (Return tt, f w).

(** [try: body except ...: handler]: a handler runs in the world the body
    left; an exception no clause names goes on to the caller. *)
Definition try_except {A : Type} (body : M A) (handler : exn → option (M A))
  : M A := fun w =>
  match body w with
  | (Raise e, w') =>
      match handler e with
      | Some h => h w'
      | None => (Raise e, w')
      end
  | r => r
  end.

(** [IOError] is [OSError], the base of the file exceptions; [ValueError]
    is not among them. *)
Definition is_IOError (e : exn) : bool :=
  match e with FileNotFoundError | IsADirectoryError => true | _ => false end.

Definition logging_log (l : level) (m : message) : M unit :=
  modify (fun w => set_logging (logging w ++ [LogRecord l m]) w).
Definition logging_info := logging_log INFO.
Definition logging_warning := logging_log WARNING.
Definition logging_error := logging_log ERROR.

Definition print (m : message) : M unit :=
  modify (fun w => set_stdout (stdout w ++ [m]) w).

Definition piece_renders (p : piece) : bool :=
  match p with
  | Arg v => renders v
  | _ => true
  end.

(** An f-string: its fields are rendered when it is evaluated, so it raises
    [ValueError] when one of them does not render.  The arguments of a
    [logging] call are rendered inside [logging], which lets no exception
    out. *)
Definition fstring (m : message) : M message :=
  if forallb piece_renders m then mret m else raise ValueError.

(** [logs.append(m)]; when the caller passed no list the fresh one that
    line 12 made is dropped at return. *)
Definition logs_append (m : message) : M unit :=
  modify (fun w => set_logs (option_map (fun l => l ++ [m]) (logs w)) w).

(** [stock_data.get(key, default)] *)
Definition stock_get (key default : value) : M value :=
  d ← gets stock_data;
  match key with
  | VStr k =>
      match dict_lookup k d with
      | Some v => mret v
      | None => mret default
      end
  | _ => if hashable key then mret default else raise TypeError
  end.

(** [stock_data[key]] *)
Definition stock_getitem (key : value) : M value :=
  d ← gets stock_data;
  match key with
  | VStr k =>
      match dict_lookup k d with
      | Some v => mret v
      | None => raise KeyError
      end
  | _ => if hashable key then raise KeyError else raise TypeError
  end.

(** [stock_data[key] = v]; a dict with a key that is no [str] is outside
    the universe. *)
Definition stock_setitem (key v : value) : M unit :=
  match key with
  | VStr k => modify (fun w => set_stock_data (dict_store k v (stock_data w)) w)
  | _ => if hashable key then lift Outside else raise TypeError
  end.

(** [del stock_data[key]] *)
Definition stock_delitem (key : value) : M unit :=
  d ← gets stock_data;
  match key with
  | VStr k =>
      match dict_lookup k d with
      | Some _ => modify (set_stock_data (dict_remove k d))
      | None => raise KeyError
      end
  | _ => if hashable key then raise KeyError else raise TypeError
  end.

(** ** The module's functions *)

(** The items that pass the first test of [add_item] and [remove_item]:
    the non-empty strings. *)
Definition valid_item (item : value) : bool :=
  isinstance_str item && truthy item.

(** The defaults of [add_item]'s parameters [item] and [qty]. *)
Definition default_item : value := VStr "default".
Definition default_qty : value := VInt 0.

(** [add_item(stock_data, item, qty, logs)]; [now] is what
    [datetime.now()] reads. *)
Definition add_item (item qty : value) (now : string) : M unit :=
  if negb (isinstance_str item) || negb (truthy item) then
    logging_warning
      [Lit "Invalid item name: "; Arg item; Lit ". Must be a non-empty string."]
  else if negb (isinstance_int qty) then
    logging_warning
      [Lit "Invalid quantity for "; Arg item; Lit ": "; Arg qty;
       Lit ". Must be an integer."]
  else
    old ← stock_get item (VInt 0);
    new ← lift (py_add old qty);
    stock_setitem item new;;
    log_message ← fstring [Lit now; Lit ": Added "; Arg qty; Lit " of "; Arg item];
    logs_append log_message;;
    logging_info log_message.

(** [remove_item(stock_data, item, qty)] *)
Definition remove_item (item qty : value) : M unit :=
  if negb (isinstance_str item) || negb (truthy item) then
    logging_warning
      [Lit "Invalid item name: "; Arg item; Lit ". Must be a non-empty string."]
  else if negb (isinstance_int qty) then
    logging_warning
      [Lit "Invalid quantity for "; Arg item; Lit ": "; Arg qty;
       Lit ". Must be an integer."]
  else
    try_except
      (old ← stock_getitem item;
       new ← lift (py_sub old qty);
       stock_setitem item new;;
       cur ← stock_getitem item;
       gone ← lift (py_le cur (VInt 0));
       if gone : bool then
         stock_delitem item;;
         logging_info [Lit "Removed "; Arg item; Lit " from stock."]
       else mret tt)
      (fun e =>
         match e with
         | KeyError =>
             Some (logging_warning
                     [Lit "Attempted to remove non-existent item: "; Arg item])
         | TypeError =>
             Some (logging_error
                     [Lit "Type error during removal of item "; Arg item;
                      Lit " with quantity "; Arg qty; Lit "."])
         | _ => None
         end).

(** [get_qty(stock_data, item)] *)
Definition get_qty (item : value) : M value :=
  stock_get item (VInt 0).

(** The comprehension of [check_low_items]: the items are visited in the
    dict's order and the first comparison that raises ends the walk. *)
Fixpoint low_items (items : dict) (threshold : value) : outcome (list string) :=
  match items with
  | [] => mret []
  | (item, qty) :: rest =>
      low ← py_lt qty threshold;
      others ← low_items rest threshold;
      mret (if low : bool then item :: others else others)
  end.

(** [check_low_items(stock_data, threshold)] *)
Definition check_low_items (threshold : value) : M (list string) :=
  d ← gets stock_data;
  lift (low_items d threshold).

Definition default_threshold : value := VInt 5.

(** The [for] loop of [print_data]. *)
Fixpoint print_items (items : dict) : M unit :=
  match items with
  | [] => mret tt
  | (item, qty) :: rest =>
      line ← fstring [Arg (VStr item); Lit " -> "; Arg qty];
      print line;;
      print_items rest
  end.

(** [print_data(stock_data)] *)
Definition print_data : M unit :=
  print [Lit (String "010" "--- Items Report ---")];;
  d ← gets stock_data;
  (if negb (truthy (VDict d)) then print [Lit "Inventory is empty."]
   else mret tt);;
  print_items d;;
  print [Lit "--------------------"].

Definition default_file : string := "inventory.json".

(** A path with a NUL character in it. *)
Definition has_nul (path : string) : bool :=
  existsb (Ascii.eqb "000") (list_ascii_of_string path).

(** Why [open(file, ...)] fails before the path is looked up, if it does:
    [ValueError] for a path with a NUL character, [FileNotFoundError] for
    the empty path. *)
Definition bad_path (file : string) : option exn :=
  if has_nul file then Some ValueError
  else if String.eqb file "" then Some FileNotFoundError
  else None.

(** [open(file, "r")] followed by reading the whole file. *)
Definition read_file (file : string) : M string :=
  match bad_path file with
  | Some e => raise e
  | None =>
      fs ← gets files;
      match fs !! file with
      | Some (File content) => mret content
      | Some Directory => raise IsADirectoryError
      | Some Vacant | None => raise FileNotFoundError
      end
  end.

(** [open(file, "w")]: the file is created, or emptied if it exists. *)
Definition open_for_writing (file : string) : M unit :=
  match bad_path file with
  | Some e => raise e
  | None =>
      fs ← gets files;
      match fs !! file with
      | Some (File _) | Some Vacant => modify (set_files (<[file := File ""]> fs))
      | Some Directory => raise IsADirectoryError
      | None => raise FileNotFoundError
      end
  end.

(** [f.write(s)] on the file opened at [file]. *)
Definition write (file s : string) : M unit :=
  modify (fun w =>
    set_files
      (alter (fun n => match n with
                       | File content => File (String.append content s)
                       | other => other
                       end) file (files w)) w).

(** [json.dump(obj, f, indent=4)] on the file opened at [file]: every chunk
    is written as the encoder yields it, so what was yielded before an int
    failed to render is in the file when the [ValueError] goes up. *)
Definition json_dump (obj : value) (file : string) : M unit :=
  write file (json_dump_text obj);;
  if json_dump_ok obj then mret tt else raise ValueError.

(** [load_data(file)] *)
Definition load_data (file : string) : M value :=
  try_except
    (content ← read_file file;
     data ← lift (json_loads content);
     mret data)
    (fun e =>
       match e with
       | FileNotFoundError =>
           Some (logging_warning
                   [Lit "Inventory file not found. Starting with empty inventory."];;
                 mret (VDict []))
       | JSONDecodeError =>
           Some (logging_error
                   [Lit "Error decoding JSON from "; Arg (VStr file);
                    Lit ". Starting with empty inventory."];;
                 mret (VDict []))
       | _ => None
       end).

(** [save_data(stock_data, file)] *)
Definition save_data (file : string) : M unit :=
  try_except
    (open_for_writing file;;
     d ← gets stock_data;
     json_dump (VDict d) file;;
     logging_info [Lit "Inventory data saved to "; Arg (VStr file)])
    (fun e =>
       if is_IOError e then
         Some (logging_error
                 [Lit "Could not save data to "; Arg (VStr file); Lit ": ";
                  Exc e])
       else None).

(** ** Vocabulary of the properties *)

(** The data-model invariant: every stored quantity is an integer above
    zero. *)
Definition positive_quantity (v : value) : bool :=
  match as_int v with
  | Some q => 0 <? q
  | None => false
  end.

Definition invariant (d : dict) : bool :=
  forallb (fun kv => positive_quantity kv.2) d.

(** An inventory of the data model: every quantity is an [int]. *)
Definition int_valued (d : dict) : bool :=
  forallb (fun kv => isinstance_int kv.2) d.

(** An inventory whose quantities all render: no int in it has more than
    [max_str_digits] digits. *)
Definition renders_all (d : dict) : bool :=
  forallb (fun kv => renders kv.2) d.

(** The quantity on record for an item, 0 when there is none. *)
Definition quantity_of (name : string) (d : dict) : Z :=
  match dict_lookup name d with
  | Some v => match as_int v with Some q => q | None => 0 end
  | None => 0
  end.

(** The items whose quantity is below [t], in the dict's order. *)
Definition items_below (t : Z) (d : dict) : list string :=
  dict_keys
    (List.filter
       (fun kv => match as_int kv.2 with Some q => q <? t | None => false end)
       d).

(** Whether [quantity < threshold] holds, for any two values: false also
    when the comparison raises. *)
Definition is_below (threshold quantity : value) : bool :=
  match py_lt quantity threshold with
  | Return low => low
  | _ => false
  end.

(** [add_item] called once for each quantity, in order; each call reads the
    clock. *)
Fixpoint add_each (item : value) (adds : list (Z * string)) : M unit :=
  match adds with
  | [] => mret tt
  | (qty, now) :: rest => add_item item (VInt qty) now;; add_each item rest
  end.

Definition sum_of (adds : list (Z * string)) : Z :=
  fold_right Z.add 0 (map fst adds).

(** ** Worlds after a call, log records and text shapes *)

(** The value [stock_data.get(name, 0)] reads. *)
Definition stored (name : string) (d : dict) : value :=
  match dict_lookup name d with
  | Some v => v
  | None => VInt 0
  end.

Definition invalid_name_warning (item : value) : log_record :=
  LogRecord WARNING
    [Lit "Invalid item name: "; Arg item; Lit ". Must be a non-empty string."].

Definition invalid_quantity_warning (item qty : value) : log_record :=
  LogRecord WARNING
    [Lit "Invalid quantity for "; Arg item; Lit ": "; Arg qty;
     Lit ". Must be an integer."].

(** The record a rejected call logs. *)
Definition rejection (item qty : value) : log_record :=
  if valid_item item then invalid_quantity_warning item qty
  else invalid_name_warning item.

Definition log_more (r : log_record) (w : world) : world :=
  set_logging (logging w ++ [r]) w.

(** The world after a successful [add_item]. *)
Definition after_add (name : string) (qty : value) (total : Z) (now : string)
  (w : world) : world :=
  let log_message :=
    [Lit now; Lit ": Added "; Arg qty; Lit " of "; Arg (VStr name)] in
  log_more (LogRecord INFO log_message)
    (set_logs (option_map (fun l => l ++ [log_message]) (logs w))
       (set_stock_data (dict_store name (VInt total) (stock_data w)) w)).

Definition missing_item_warning (name : string) : log_record :=
  LogRecord WARNING
    [Lit "Attempted to remove non-existent item: "; Arg (VStr name)].

Definition type_error_record (name : string) (qty : value) : log_record :=
  LogRecord ERROR
    [Lit "Type error during removal of item "; Arg (VStr name);
     Lit " with quantity "; Arg qty; Lit "."].

Definition removed_record (name : string) : log_record :=
  LogRecord INFO [Lit "Removed "; Arg (VStr name); Lit " from stock."].

(** Every call of [remove_item] falls under one of five cases. *)
Inductive remove_case (w : world) (item qty : value) : world → Prop :=
| remove_rejected :
    valid_item item = false ∨ isinstance_int qty = false →
    remove_case w item qty (log_more (rejection item qty) w)
| remove_missing name :
    item = VStr name → name ≠ "" → isinstance_int qty = true →
    dict_lookup name (stock_data w) = None →
    remove_case w item qty (log_more (missing_item_warning name) w)
| remove_type_error name old :
    item = VStr name → name ≠ "" → isinstance_int qty = true →
    dict_lookup name (stock_data w) = Some old → as_int old = None →
    remove_case w item qty (log_more (type_error_record name qty) w)
| remove_deleted name n old q :
    item = VStr name → name ≠ "" → as_int qty = Some n →
    dict_lookup name (stock_data w) = Some old → as_int old = Some q →
    q - n <= 0 →
    remove_case w item qty
      (log_more (removed_record name)
         (set_stock_data (dict_remove name (stock_data w)) w))
| remove_reduced name n old q :
    item = VStr name → name ≠ "" → as_int qty = Some n →
    dict_lookup name (stock_data w) = Some old → as_int old = Some q →
    0 < q - n →
    remove_case w item qty
      (set_stock_data (dict_store name (VInt (q - n)) (stock_data w)) w).

(** Every call of [add_item] falls under one of four cases; the last two
    raise, one after the store and one before it. *)
Inductive add_case (w : world) (item qty : value) (now : string)
  : outcome unit → world → Prop :=
| add_rejected :
    valid_item item = false ∨ isinstance_int qty = false →
    add_case w item qty now (Return tt) (log_more (rejection item qty) w)
| add_added name n q :
    item = VStr name → name ≠ "" → as_int qty = Some n →
    as_int (stored name (stock_data w)) = Some q → renders qty = true →
    add_case w item qty now (Return tt) (after_add name qty (q + n) now w)
| add_unrendered name n q :
    item = VStr name → name ≠ "" → as_int qty = Some n →
    as_int (stored name (stock_data w)) = Some q → renders qty = false →
    add_case w item qty now (Raise ValueError)
      (set_stock_data (dict_store name (VInt (q + n)) (stock_data w)) w)
| add_type_error name :
    item = VStr name → name ≠ "" → isinstance_int qty = true →
    as_int (stored name (stock_data w)) = None →
    add_case w item qty now (Raise TypeError) w.


Definition digits_of (d : Decimal.uint) : text :=
  chars (DecimalString.NilEmpty.string_of_uint d).




Definition save_failed_record (file : string) (e : exn) : log_record :=
  LogRecord ERROR
    [Lit "Could not save data to "; Arg (VStr file); Lit ": "; Exc e].

Definition saved_record (file : string) : log_record :=
  LogRecord INFO [Lit "Inventory data saved to "; Arg (VStr file)].



(** ** Sample worlds *)

(** A world holding the inventory [d] and nothing else: no list of the
    caller's, nothing logged or printed, and no path that opens. *)
Definition fresh (d : dict) : world := World d None [] [] ∅.

Definition demo_stock : dict := [("apple", VInt 10); ("banana", VInt 3)].




(** An inventory with a quantity of 4301 digits, in a working directory
    with no [inventory.json] yet. *)
Definition long_quantity_stock : dict :=
  [("apple", VInt 10); ("banana", VInt str_limit); ("cherry", VInt 1)].

Definition long_quantity_world : world :=
  World long_quantity_stock None [] [] {[ default_file := Vacant ]}.

(** ** Further vocabulary *)

(** The entry [add_item] appends to the caller's list and logs. *)
Definition add_message (now : string) (qty : value) (name : string) : message :=
  [Lit now; Lit ": Added "; Arg qty; Lit " of "; Arg (VStr name)].

Definition add_messages (name : string) (adds : list (Z * string))
  : list message :=
  map (fun a => add_message a.2 (VInt a.1) name) adds.

(** The lines [print_data] prints for an inventory. *)
Definition report_line (kv : string * value) : message :=
  [Arg (VStr kv.1); Lit " -> "; Arg kv.2].

Definition report (d : dict) : list message :=
  [Lit (String "010" "--- Items Report ---")] ::
  (match d with [] => [[Lit "Inventory is empty."]] | _ => [] end) ++
  map report_line d ++ [[Lit "--------------------"]].

(** ** The demo *)







(* ===================================================================== *)
(** * Properties *)
(** ** Facts about the dict operations *)

Section DictFacts.
Implicit Types (d : dict) (k : string) (v : value).

Lemma dict_lookup_store_eq k v d :
  dict_lookup k (dict_store k v d) = Some v.
Proof.
  induction d as [|[k' v'] d IH]; simpl.
  - now rewrite String.eqb_refl.
  - destruct (String.eqb k k') eqn:E; simpl; rewrite E; auto.
Qed.

Lemma dict_lookup_store_ne k k' v d :
  k ≠ k' → dict_lookup k' (dict_store k v d) = dict_lookup k' d.
Proof.
  intros Hne. induction d as [|[k0 v0] d IH]; simpl.
  - destruct (String.eqb k' k) eqn:E; auto.
    apply String.eqb_eq in E. congruence.
  - destruct (String.eqb k k0) eqn:E; simpl.
    + apply String.eqb_eq in E. subst k0.
      destruct (String.eqb k' k) eqn:E'; auto.
      apply String.eqb_eq in E'. congruence.
    + now rewrite IH.
Qed.

Lemma dict_lookup_remove_eq k d : dict_lookup k (dict_remove k d) = None.
Proof.
  induction d as [|[k' v'] d IH]; simpl; auto.
  destruct (String.eqb k k') eqn:E; simpl; auto. now rewrite E.
Qed.

Lemma dict_lookup_remove_ne k k' d :
  k ≠ k' → dict_lookup k' (dict_remove k d) = dict_lookup k' d.
Proof.
  intros Hne. induction d as [|[k0 v0] d IH]; simpl; auto.
  destruct (String.eqb k k0) eqn:E; simpl.
  - apply String.eqb_eq in E. subst k0.
    destruct (String.eqb k' k) eqn:E'; auto.
    apply String.eqb_eq in E'. congruence.
  - now rewrite IH.
Qed.

Lemma dict_remove_store k v d :
  dict_remove k (dict_store k v d) = dict_remove k d.
Proof.
  induction d as [|[k' v'] d IH]; simpl.
  - now rewrite String.eqb_refl.
  - destruct (String.eqb k k') eqn:E; simpl; rewrite E; auto.
    now rewrite IH.
Qed.

Lemma dict_lookup_None k d : dict_lookup k d = None ↔ k ∉ dict_keys d.
Proof.
  unfold dict_keys. induction d as [|[k' v'] d IH]; simpl.
  - split; auto. intros _ H. inversion H.
  - destruct (String.eqb k k') eqn:E.
    + apply String.eqb_eq in E. subst. split; [discriminate|].
      intros H. exfalso. apply H. constructor.
    + apply String.eqb_neq in E. rewrite IH. split.
      * intros H H'. inversion H'; subst; auto.
      * intros H H'. apply H. now constructor.
Qed.

Lemma dict_keys_remove k k' d :
  k' ∈ dict_keys (dict_remove k d) → k' ∈ dict_keys d.
Proof.
  unfold dict_keys. induction d as [|[k0 v0] d IH]; simpl; auto.
  destruct (String.eqb k k0); simpl.
  - intros H. constructor. auto.
  - intros H. inversion H; subst; [constructor|]. constructor. auto.
Qed.

Lemma invariant_store k v d :
  invariant d = true → positive_quantity v = true →
  invariant (dict_store k v d) = true.
Proof.
  unfold invariant. intros Hd Hv.
  induction d as [|[k' v'] d IH]; simpl in *.
  - now rewrite Hv.
  - apply andb_prop in Hd as [H1 H2].
    destruct (String.eqb k k'); simpl.
    + now rewrite Hv, H2.
    + now rewrite H1, IH.
Qed.

Lemma invariant_remove k d :
  invariant d = true → invariant (dict_remove k d) = true.
Proof.
  unfold invariant. intros Hd.
  induction d as [|[k' v'] d IH]; simpl in *; auto.
  apply andb_prop in Hd as [H1 H2].
  destruct (String.eqb k k'); simpl; auto.
  now rewrite H1, IH.
Qed.

Lemma invariant_lookup k v d :
  invariant d = true → dict_lookup k d = Some v → positive_quantity v = true.
Proof.
  unfold invariant. intros Hd.
  induction d as [|[k' v'] d IH]; simpl in *; [discriminate|].
  apply andb_prop in Hd as [H1 H2].
  destruct (String.eqb k k'); auto. now intros [= <-].
Qed.

Lemma invariant_store_inv k v d :
  invariant (dict_store k v d) = true → positive_quantity v = true.
Proof.
  intros H. eapply invariant_lookup; [exact H|]. apply dict_lookup_store_eq.
Qed.
End DictFacts.

(** ** The digit limit *)

Lemma digit_count_digits_of d :
  digit_count (digits_of d) = Decimal.nb_digits d.
Proof.
  unfold digit_count, digits_of, chars.
  induction d; cbn [DecimalString.NilEmpty.string_of_uint list_ascii_of_string
                    List.filter Decimal.nb_digits];
    try reflexivity;
    match goal with
    | |- context [is_digit ?c] => change (is_digit c) with true
    end; cbn [List.length]; now rewrite IHd.
Qed.

Lemma usize_nb_digits d :
  DecimalPos.Unsigned.usize d = N.of_nat (Decimal.nb_digits d).
Proof.
  induction d; cbn [DecimalPos.Unsigned.usize Decimal.nb_digits];
    try reflexivity; rewrite IHd; lia.
Qed.

Lemma of_lu_bound d :
  (DecimalPos.Unsigned.of_lu d < 10 ^ DecimalPos.Unsigned.usize d)%N.
Proof.
  induction d; cbn [DecimalPos.Unsigned.of_lu DecimalPos.Unsigned.usize];
    try (cbn; lia); rewrite N.pow_succ_r'; lia.
Qed.

Lemma to_uint_head p :
  match Pos.to_uint p with
  | Decimal.Nil | Decimal.D0 _ => False
  | _ => True
  end.
Proof.
  pose proof (DecimalPos.Unsigned.to_of (Pos.to_uint p)) as H.
  rewrite DecimalPos.Unsigned.of_to in H. cbn in H.
  pose proof (DecimalPos.Unsigned.to_uint_nonzero p) as Hz.
  pose proof (DecimalPos.Unsigned.to_uint_nonnil p) as Hn.
  destruct (Pos.to_uint p) as [|u| | | | | | | | |] eqn:E; auto.
  rewrite DecimalFacts.unorm_D0 in H. unfold Decimal.unorm in H.
  pose proof (DecimalFacts.nzhead_nonzero u u) as Hnz.
  destruct (Decimal.nzhead u); congruence.
Qed.

(** A positive number written with [k] digits lies from [10^(k-1)] up to
    [10^k]. *)
Lemma to_uint_bounds p :
  ∃ k, Decimal.nb_digits (Pos.to_uint p) = S k ∧
       (10 ^ N.of_nat k <= N.pos p < 10 ^ N.of_nat (S k))%N.
Proof.
  pose proof (DecimalPos.Unsigned.of_to p) as Hof.
  rewrite DecimalPos.Unsigned.of_uint_alt in Hof.
  pose proof (to_uint_head p) as Hh.
  destruct (Pos.to_uint p) as [|u|u|u|u|u|u|u|u|u|u]; try contradiction;
    exists (Decimal.nb_digits u); (split; [reflexivity|]);
    unfold Decimal.rev in Hof; cbn [Decimal.revapp] in Hof;
    rewrite DecimalPos.Unsigned.of_lu_revapp in Hof;
    cbn [DecimalPos.Unsigned.of_lu] in Hof;
    pose proof (of_lu_bound (Decimal.rev u)) as Hb;
    rewrite usize_nb_digits, DecimalFacts.nb_digits_rev in Hb;
    rewrite usize_nb_digits in Hof;
    rewrite Nat2N.inj_succ, N.pow_succ_r';
    set (P := (10 ^ N.of_nat (Decimal.nb_digits u))%N) in *;
    set (r := DecimalPos.Unsigned.of_lu (Decimal.rev u)) in *;
    rewrite <- Hof; cbn; lia.
Qed.

Lemma digit_count_decimal_pos p :
  digit_count (decimal (Z.pos p)) = Decimal.nb_digits (Pos.to_uint p) ∧
  digit_count (decimal (Z.neg p)) = Decimal.nb_digits (Pos.to_uint p).
Proof.
  pose proof (DecimalPos.Unsigned.to_uint_nonnil p) as Hn.
  unfold decimal. cbn [Z.to_int DecimalString.NilZero.string_of_int].
  unfold DecimalString.NilZero.string_of_uint.
  destruct (Pos.to_uint p) eqn:E; try contradiction;
    rewrite <- E; split; try apply digit_count_digits_of;
    unfold chars; cbn [list_ascii_of_string]; unfold digit_count;
    cbn [List.filter]; change (is_digit "-") with false;
    apply digit_count_digits_of.
Qed.

Lemma fits_pos p :
  (Decimal.nb_digits (Pos.to_uint p) ≤ max_str_digits)%nat ↔
  Z.pos p < str_limit.
Proof.
  destruct (to_uint_bounds p) as (k & -> & Hlo & Hhi).
  unfold str_limit.
  change (Z.pos p) with (Z.of_N (N.pos p)).
  change 10 with (Z.of_N 10).
  rewrite <- nat_N_Z, <- N2Z.inj_pow, <- N2Z.inj_lt.
  split; intros H.
  - eapply N.lt_le_trans; [exact Hhi|].
    apply N.pow_le_mono_r; lia.
  - destruct (Nat.le_gt_cases (S k) max_str_digits) as [|Hgt]; auto.
    exfalso.
    assert (10 ^ N.of_nat max_str_digits <= 10 ^ N.of_nat k)%N
      by (apply N.pow_le_mono_r; lia).
    lia.
Qed.

Lemma int_fits_spec n : int_fits n = true ↔ Z.abs n < str_limit.
Proof.
  unfold int_fits. rewrite Nat.leb_le.
  destruct n as [|p|p].
  - split; intros _.
    + unfold str_limit. cbn [Z.abs]. apply Z.pow_pos_nonneg; lia.
    + change (digit_count (decimal 0)) with 1%nat. unfold max_str_digits.
      apply Nat.leb_le. vm_compute. reflexivity.
  - rewrite (proj1 (digit_count_decimal_pos p)). apply fits_pos.
  - rewrite (proj2 (digit_count_decimal_pos p)). apply fits_pos.
Qed.

Lemma str_limit_pos : 0 < str_limit.
Proof. unfold str_limit. apply Z.pow_pos_nonneg; lia. Qed.

Lemma int_fits_small n : Z.abs n < str_limit → int_fits n = true.
Proof. apply int_fits_spec. Qed.

Lemma int_fits_large n : str_limit <= Z.abs n → int_fits n = false.
Proof.
  intros H. destruct (int_fits n) eqn:E; [|reflexivity].
  apply int_fits_spec in E. lia.
Qed.

Lemma renders_int_like v n :
  as_int v = Some n → renders v = true ↔ Z.abs n < str_limit.
Proof.
  destruct v as [|b|m| | |]; try discriminate; intros [= <-]; cbn [renders].
  - pose proof str_limit_pos. destruct b; cbn; split; auto; lia.
  - apply int_fits_spec.
Qed.


(** ** What each function does, case by case *)

(** Unfolds the monad and the primitive operations down to the world. *)
Ltac run :=
  cbv beta iota delta
    [mbind mret M_bind M_ret outcome_bind outcome_ret
     raise lift gets modify try_except
     logging_info logging_warning logging_error logging_log logs_append
     print stock_get stock_getitem stock_setitem stock_delitem hashable
     negb orb andb isinstance_str].

Lemma valid_item_spec item :
  valid_item item = true ↔ ∃ name, item = VStr name ∧ name ≠ "".
Proof.
  unfold valid_item. destruct item; simpl; try (split; [discriminate|]);
    try (intros (name & [=] & _)).
  split.
  - intros H. exists s. split; auto. intros ->. discriminate.
  - intros (name & [= <-] & Hne).
    destruct (String.eqb s "") eqn:E; auto.
    apply String.eqb_eq in E. contradiction.
Qed.

Lemma truthy_name name : name ≠ "" → truthy (VStr name) = true.
Proof.
  intros Hne. simpl. destruct (String.eqb name "") eqn:E; auto.
  apply String.eqb_eq in E. contradiction.
Qed.

Lemma isinstance_int_as_int v :
  isinstance_int v = true ↔ ∃ n, as_int v = Some n.
Proof.
  destruct v; simpl; split; try discriminate; eauto;
    intros [n [=]].
Qed.

Lemma add_item_rejects w item qty now :
  valid_item item = false ∨ isinstance_int qty = false →
  add_item item qty now w = (Return tt, log_more (rejection item qty) w).
Proof.
  unfold add_item, rejection, valid_item.
  destruct (isinstance_str item) eqn:Es, (truthy item) eqn:Et; simpl;
    try reflexivity.
  intros [H|H]; [discriminate|]. now rewrite H.
Qed.

Lemma remove_item_rejects w item qty :
  valid_item item = false ∨ isinstance_int qty = false →
  remove_item item qty w = (Return tt, log_more (rejection item qty) w).
Proof.
  unfold remove_item, rejection, valid_item.
  destruct (isinstance_str item) eqn:Es, (truthy item) eqn:Et; simpl;
    try reflexivity.
  intros [H|H]; [discriminate|]. now rewrite H.
Qed.

Lemma fstring_run m w :
  fstring m w =
    (if forallb piece_renders m then Return m else Raise ValueError, w).
Proof. unfold fstring. destruct (forallb piece_renders m); reflexivity. Qed.

(** An accepted [add_item] stores the sum, then renders its log message:
    when the quantity renders the message is appended and logged, and when
    it does not the [ValueError] goes up with the sum stored. *)
Lemma add_item_accepted w name qty n q now :
  name ≠ "" → as_int qty = Some n → as_int (stored name (stock_data w)) = Some q →
  add_item (VStr name) qty now w =
    if renders qty then (Return tt, after_add name qty (q + n) now w)
    else (Raise ValueError,
          set_stock_data (dict_store name (VInt (q + n)) (stock_data w)) w).
Proof.
  intros Hname Hqty Hold. unfold add_item.
  rewrite (truthy_name _ Hname).
  assert (isinstance_int qty = true) as -> by (apply isinstance_int_as_int; eauto).
  run. unfold stored in Hold.
  destruct (dict_lookup name (stock_data w)) as [old|]; unfold py_add.
  - rewrite Hold, Hqty, fstring_run. cbn [forallb piece_renders].
    destruct (renders qty); reflexivity.
  - injection Hold as <-. cbn [as_int]. rewrite Hqty, fstring_run.
    cbn [forallb piece_renders]. destruct (renders qty); reflexivity.
Qed.

Lemma add_item_adds w name qty n q now :
  name ≠ "" → as_int qty = Some n → as_int (stored name (stock_data w)) = Some q →
  renders qty = true →
  add_item (VStr name) qty now w = (Return tt, after_add name qty (q + n) now w).
Proof.
  intros Hname Hqty Hold Hr.
  now rewrite (add_item_accepted w name qty n q now Hname Hqty Hold), Hr.
Qed.

Lemma add_item_unrendered w name qty n q now :
  name ≠ "" → as_int qty = Some n → as_int (stored name (stock_data w)) = Some q →
  renders qty = false →
  add_item (VStr name) qty now w =
    (Raise ValueError,
     set_stock_data (dict_store name (VInt (q + n)) (stock_data w)) w).
Proof.
  intros Hname Hqty Hold Hr.
  now rewrite (add_item_accepted w name qty n q now Hname Hqty Hold), Hr.
Qed.

(** Whether or not its message renders, an accepted [add_item] leaves the
    sum stored. *)
Lemma add_item_stores w name qty n q now :
  name ≠ "" → as_int qty = Some n → as_int (stored name (stock_data w)) = Some q →
  stock_data (add_item (VStr name) qty now w).2 =
    dict_store name (VInt (q + n)) (stock_data w).
Proof.
  intros Hname Hqty Hold.
  rewrite (add_item_accepted w name qty n q now Hname Hqty Hold).
  destruct (renders qty); reflexivity.
Qed.

Lemma add_item_type_error w name qty now :
  name ≠ "" → isinstance_int qty = true →
  as_int (stored name (stock_data w)) = None →
  add_item (VStr name) qty now w = (Raise TypeError, w).
Proof.
  intros Hname Hqty Hold. unfold add_item.
  rewrite (truthy_name _ Hname), Hqty.
  run. unfold stored in Hold.
  destruct (dict_lookup name (stock_data w)) as [old|]; [|discriminate].
  unfold py_add. rewrite Hold.
  destruct old, qty; try discriminate; reflexivity.
Qed.

Lemma remove_item_missing w name qty :
  name ≠ "" → isinstance_int qty = true →
  dict_lookup name (stock_data w) = None →
  remove_item (VStr name) qty w =
    (Return tt, log_more (missing_item_warning name) w).
Proof.
  intros Hname Hqty Hnone. unfold remove_item.
  rewrite (truthy_name _ Hname), Hqty.
  run. rewrite Hnone. reflexivity.
Qed.

Lemma remove_item_type_error w name qty old :
  name ≠ "" → isinstance_int qty = true →
  dict_lookup name (stock_data w) = Some old → as_int old = None →
  remove_item (VStr name) qty w =
    (Return tt, log_more (type_error_record name qty) w).
Proof.
  intros Hname Hqty Hsome Hold. unfold remove_item.
  rewrite (truthy_name _ Hname), Hqty.
  run. rewrite Hsome. unfold py_sub. rewrite Hold. reflexivity.
Qed.

Lemma remove_item_deletes w name qty n old q :
  name ≠ "" → as_int qty = Some n →
  dict_lookup name (stock_data w) = Some old → as_int old = Some q →
  q - n <= 0 →
  remove_item (VStr name) qty w =
    (Return tt,
     log_more (removed_record name)
       (set_stock_data (dict_remove name (stock_data w)) w)).
Proof.
  intros Hname Hqty Hsome Hold Hle. unfold remove_item.
  rewrite (truthy_name _ Hname).
  assert (isinstance_int qty = true) as -> by (apply isinstance_int_as_int; eauto).
  run. rewrite Hsome. unfold py_sub. rewrite Hold, Hqty. cbn.
  rewrite dict_lookup_store_eq. cbn.
  destruct (Z.compare_spec (q - n) 0); try lia; cbn;
    rewrite dict_lookup_store_eq, dict_remove_store; reflexivity.
Qed.

Lemma remove_item_reduces w name qty n old q :
  name ≠ "" → as_int qty = Some n →
  dict_lookup name (stock_data w) = Some old → as_int old = Some q →
  0 < q - n →
  remove_item (VStr name) qty w =
    (Return tt,
     set_stock_data (dict_store name (VInt (q - n)) (stock_data w)) w).
Proof.
  intros Hname Hqty Hsome Hold Hlt. unfold remove_item.
  rewrite (truthy_name _ Hname).
  assert (isinstance_int qty = true) as -> by (apply isinstance_int_as_int; eauto).
  run. rewrite Hsome. unfold py_sub. rewrite Hold, Hqty. cbn.
  rewrite dict_lookup_store_eq. cbn.
  destruct (Z.compare_spec (q - n) 0); try lia. reflexivity.
Qed.

Lemma remove_item_cases w item qty :
  ∃ w', remove_item item qty w = (Return tt, w') ∧ remove_case w item qty w'.
Proof.
  destruct (valid_item item) eqn:Hv; cycle 1.
  { eexists. split; [apply remove_item_rejects; auto|]. constructor. auto. }
  destruct (isinstance_int qty) eqn:Hq; cycle 1.
  { eexists. split; [apply remove_item_rejects; auto|]. constructor. auto. }
  apply valid_item_spec in Hv as (name & -> & Hname).
  pose proof Hq as Hq'. apply isinstance_int_as_int in Hq' as [n Hn].
  destruct (dict_lookup name (stock_data w)) as [old|] eqn:Hl; cycle 1.
  { eexists. split; [apply remove_item_missing; auto|].
    eapply remove_missing; eauto. }
  destruct (as_int old) as [q|] eqn:Ho; cycle 1.
  { eexists. split; [eapply remove_item_type_error; eauto|].
    eapply remove_type_error; eauto. }
  destruct (Z_le_gt_dec (q - n) 0).
  - eexists. split; [eapply remove_item_deletes; eauto|].
    eapply remove_deleted; eauto.
  - eexists. split; [eapply remove_item_reduces; eauto; lia|].
    eapply remove_reduced; eauto. lia.
Qed.

Lemma add_item_cases w item qty now :
  ∃ r w', add_item item qty now w = (r, w') ∧ add_case w item qty now r w'.
Proof.
  destruct (valid_item item) eqn:Hv; cycle 1.
  { do 2 eexists. split; [apply add_item_rejects; auto|]. constructor. auto. }
  destruct (isinstance_int qty) eqn:Hq; cycle 1.
  { do 2 eexists. split; [apply add_item_rejects; auto|]. constructor. auto. }
  apply valid_item_spec in Hv as (name & -> & Hname).
  pose proof Hq as Hq'. apply isinstance_int_as_int in Hq' as [n Hn].
  destruct (as_int (stored name (stock_data w))) as [q|] eqn:Ho.
  - destruct (renders qty) eqn:Hr.
    + do 2 eexists. split; [eapply add_item_adds; eauto|].
      eapply add_added; eauto.
    + do 2 eexists. split; [eapply add_item_unrendered; eauto|].
      eapply add_unrendered; eauto.
  - do 2 eexists. split; [eapply add_item_type_error; eauto|].
    eapply add_type_error; eauto.
Qed.

Lemma get_qty_run w item :
  get_qty item w =
    (if hashable item then
       Return (match item with VStr name => stored name (stock_data w)
                          | _ => VInt 0 end)
     else Raise TypeError, w).
Proof.
  unfold get_qty, stored. destruct item; run; try reflexivity.
  destruct (dict_lookup s (stock_data w)); reflexivity.
Qed.

Lemma py_lt_int a b x y :
  as_int a = Some x → as_int b = Some y → py_lt a b = Return (x <? y).
Proof.
  intros Ha Hb. unfold py_lt.
  assert (py_compare a b = Return (x ?= y)) as ->.
  { destruct a, b; try discriminate; simpl in *; congruence. }
  cbn. unfold Z.ltb. destruct (x ?= y); reflexivity.
Qed.

Lemma low_items_int d threshold t :
  int_valued d = true → as_int threshold = Some t →
  low_items d threshold = Return (items_below t d).
Proof.
  intros Hd Ht. unfold items_below, int_valued in *.
  induction d as [|[k v] d IH]; simpl in *; [reflexivity|].
  apply andb_prop in Hd as [Hv Hd].
  apply isinstance_int_as_int in Hv as [q Hq].
  rewrite (py_lt_int _ _ _ _ Hq Ht), Hq. cbn. rewrite (IH Hd). cbn.
  destruct (q <? t); reflexivity.
Qed.

Lemma low_items_returned d threshold : ∀ items,
  low_items d threshold = Return items →
  items = dict_keys (List.filter (fun kv => is_below threshold kv.2) d).
Proof.
  induction d as [|[k v] d IH]; intros items;
    cbn [low_items List.filter dict_keys map snd].
  - now intros [= <-].
  - unfold is_below at 1.
    destruct (py_lt v threshold) as [low| |]; try discriminate.
    destruct (low_items d threshold) as [others| |]; try discriminate.
    intros [= <-]. specialize (IH others eq_refl). unfold dict_keys in IH.
    rewrite IH. now destruct low.
Qed.

Lemma check_low_items_world w threshold :
  (check_low_items threshold w).2 = w.
Proof.
  unfold check_low_items. run.
  destruct (low_items (stock_data w) threshold); reflexivity.
Qed.

Lemma int_valued_lookup d name v :
  int_valued d = true → dict_lookup name d = Some v → ∃ q, as_int v = Some q.
Proof.
  unfold int_valued. intros Hd.
  induction d as [|[k' v'] d IH]; simpl in *; [discriminate|].
  apply andb_prop in Hd as [H1 H2].
  destruct (String.eqb name k'); auto.
  intros [= <-]. now apply isinstance_int_as_int.
Qed.

Lemma dict_keys_store_present k v v0 d :
  dict_lookup k d = Some v0 → dict_keys (dict_store k v d) = dict_keys d.
Proof.
  unfold dict_keys. induction d as [|[k' v'] d IH]; simpl; [discriminate|].
  destruct (String.eqb k k') eqn:E; simpl; auto.
  intros H. now rewrite IH.
Qed.

Lemma stored_after_add name qty total now w :
  stored name (stock_data (after_add name qty total now w)) = VInt total.
Proof. unfold stored, after_add. cbn. now rewrite dict_lookup_store_eq. Qed.

Lemma add_each_accumulates name adds : ∀ w q,
  name ≠ "" → stored name (stock_data w) = VInt q →
  Forall (fun a => Z.abs a.1 < str_limit) adds →
  ∃ w', add_each (VStr name) adds w = (Return tt, w') ∧
        stored name (stock_data w') = VInt (q + sum_of adds).
Proof.
  induction adds as [|[n now] adds IH]; intros w q Hname Hq Hfit.
  - exists w. split; [reflexivity|]. unfold sum_of. cbn.
    now rewrite Z.add_0_r.
  - apply Forall_cons in Hfit as [Hn Hfit]. cbn [fst] in Hn.
    destruct (IH (after_add name (VInt n) (q + n) now w) (q + n) Hname)
      as (w' & Hrun & Hst); [apply stored_after_add|exact Hfit|].
    exists w'. split.
    + cbn [add_each]. unfold mbind at 1, M_bind.
      rewrite (add_item_adds w name (VInt n) n q now); auto.
      * now rewrite Hq.
      * now apply int_fits_small.
    + rewrite Hst. unfold sum_of. cbn. f_equal. lia.
Qed.

Lemma set_files_same w : set_files (files w) w = w.
Proof. now destruct w. Qed.

(** [open(file, "w")] either raises and leaves the files alone, or returns
    with the file emptied. *)
Lemma open_for_writing_cases w file :
  open_for_writing file w =
    (Return tt, set_files (<[file := File ""]> (files w)) w) ∨
  ∃ e, open_for_writing file w = (Raise e, w).
Proof.
  unfold open_for_writing. destruct (bad_path file) as [e|]; run; eauto.
  destruct (files w !! file) as [[content| |]|]; eauto.
Qed.

Lemma open_for_writing_returns w file :
  (open_for_writing file w).1 = Return tt →
  open_for_writing file w =
    (Return tt, set_files (<[file := File ""]> (files w)) w).
Proof.
  destruct (open_for_writing_cases w file) as [H | [e H]]; rewrite H; auto.
  discriminate.
Qed.

Lemma open_for_writing_raises w file e :
  (open_for_writing file w).1 = Raise e →
  open_for_writing file w = (Raise e, w).
Proof.
  destruct (open_for_writing_cases w file) as [H | [e' H]]; rewrite H;
    cbn; congruence.
Qed.

(** A path that opens for writing is a proper path that names a file or a
    place for one. *)
Lemma open_for_writing_path w file :
  (open_for_writing file w).1 = Return tt →
  bad_path file = None ∧ files w !! file ≠ None ∧
  files w !! file ≠ Some Directory.
Proof.
  unfold open_for_writing. destruct (bad_path file) as [e|]; run;
    [discriminate|].
  destruct (files w !! file) as [[content| |]|]; cbn; try discriminate;
    repeat split; discriminate.
Qed.

Lemma write_after_open m file s :
  alter (fun n => match n with
                  | File content => File (String.append content s)
                  | other => other
                  end) file (<[file := File ""]> m) =
  (<[file := File s]> m : gmap string node).
Proof. now rewrite alter_insert_eq. Qed.

(** [save_data] on a path that opens for writing: the file holds what
    [json.dump] wrote, all of the inventory when every quantity renders and
    a beginning of it when [json.dump] raised. *)
Lemma save_data_opened w file :
  (open_for_writing file w).1 = Return tt →
  save_data file w =
    if json_dump_ok (VDict (stock_data w)) then
      (Return tt,
       log_more (saved_record file)
         (set_files
            (<[file := File (json_dump_text (VDict (stock_data w)))]> (files w))
            w))
    else
      (Raise ValueError,
       set_files
         (<[file := File (json_dump_text (VDict (stock_data w)))]> (files w)) w).
Proof.
  intros Hopen. apply open_for_writing_returns in Hopen.
  unfold save_data, try_except, json_dump, write.
  unfold mbind at 1, M_bind. rewrite Hopen. run.
  cbn [stock_data files set_files]. rewrite write_after_open.
  destruct (json_dump_ok (VDict (stock_data w))); reflexivity.
Qed.


(** [save_data] on a path that does not open: an [OSError] is logged, any
    other exception goes up; nothing is written. *)
Lemma save_data_refused w file e :
  (open_for_writing file w).1 = Raise e →
  save_data file w =
    if is_IOError e then (Return tt, log_more (save_failed_record file e) w)
    else (Raise e, w).
Proof.
  intros Hopen. apply open_for_writing_raises in Hopen.
  unfold save_data, try_except. unfold mbind at 1, M_bind. rewrite Hopen.
  destruct e; reflexivity.
Qed.

Lemma read_file_cases w file :
  (∃ content, read_file file w = (Return content, w) ∧
              bad_path file = None ∧ files w !! file = Some (File content)) ∨
  ∃ e, read_file file w = (Raise e, w).
Proof.
  unfold read_file. destruct (bad_path file) as [e|]; run; eauto.
  destruct (files w !! file) as [[content| |]|]; eauto.
Qed.








Lemma line_fstring k v w :
  fstring [Arg (VStr k); Lit " -> "; Arg v] w =
    (if renders v then Return (report_line (k, v)) else Raise ValueError, w).
Proof.
  rewrite fstring_run. cbn [forallb piece_renders renders andb].
  destruct (renders v); reflexivity.
Qed.

(** The loop of [print_data] prints a line for each item up to the first
    quantity that does not render, and raises there. *)
Lemma print_items_output d : ∀ w,
  renders_all d = true →
  print_items d w = (Return tt, set_stdout (stdout w ++ map report_line d) w).
Proof.
  unfold renders_all.
  induction d as [|[k v] d IH]; intros w Hr.
  - cbn. unfold mret, M_ret. rewrite app_nil_r. now destruct w.
  - cbn [forallb snd] in Hr. apply andb_prop in Hr as [Hv Hd].
    cbn [print_items]. unfold mbind at 1, M_bind.
    rewrite line_fstring, Hv. run. rewrite (IH _ Hd). cbn.
    now rewrite <- app_assoc.
Qed.

Lemma print_items_stops d1 k v d2 : ∀ w,
  renders_all d1 = true → renders v = false →
  print_items (d1 ++ (k, v) :: d2) w =
    (Raise ValueError, set_stdout (stdout w ++ map report_line d1) w).
Proof.
  unfold renders_all.
  induction d1 as [|[k1 v1] d1 IH]; intros w Hr Hv.
  - cbn [app print_items]. unfold mbind at 1, M_bind.
    rewrite line_fstring, Hv. cbn. rewrite app_nil_r. now destruct w.
  - cbn [forallb snd] in Hr. apply andb_prop in Hr as [Hv1 Hd].
    cbn [app print_items]. unfold mbind at 1, M_bind.
    rewrite line_fstring, Hv1. run. rewrite (IH _ Hd Hv). cbn.
    now rewrite <- app_assoc.
Qed.

Lemma print_items_world d : ∀ w,
  ∃ out, (print_items d w).2 = set_stdout (stdout w ++ out) w.
Proof.
  induction d as [|[k v] d IH]; intros w.
  - exists []. cbn. rewrite app_nil_r. now destruct w.
  - cbn [print_items]. unfold mbind at 1, M_bind. rewrite line_fstring.
    destruct (renders v).
    + run.
      match goal with
      | |- context [print_items d ?w1] => destruct (IH w1) as [out Hout]
      end.
      rewrite Hout. eexists. cbn. rewrite <- app_assoc. reflexivity.
    + exists []. cbn. rewrite app_nil_r. now destruct w.
Qed.

Lemma print_data_world w :
  ∃ out, (print_data w).2 = set_stdout (stdout w ++ out) w.
Proof.
  unfold print_data. run. cbn [stock_data set_stdout].
  destruct (truthy (VDict (stock_data w))); cbv beta iota;
    match goal with
    | |- context [print_items _ ?w1] =>
        destruct (print_items_world (stock_data w) w1) as [out Hout];
        destruct (print_items (stock_data w) w1) as [[[]| |] w2]
    end;
    cbn in Hout; subst; cbn; eexists; repeat rewrite <- app_assoc;
    reflexivity.
Qed.


Lemma demo_stock_wf : dict_wf demo_stock.
Proof.
  unfold dict_wf, demo_stock. cbn.
  repeat constructor; rewrite ?list_elem_of_In; cbn; intuition discriminate.
Qed.

Lemma stock_after_add w item qty now k :
  VStr k ≠ item →
  dict_lookup k (stock_data (add_item item qty now w).2) =
  dict_lookup k (stock_data w).
Proof.
  intros Hne. destruct (add_item_cases w item qty now) as (r & w' & -> & Hc).
  cbn. inversion Hc; subst; cbn; auto;
    apply dict_lookup_store_ne; congruence.
Qed.

Lemma stock_after_remove w item qty k :
  VStr k ≠ item →
  dict_lookup k (stock_data (remove_item item qty w).2) =
  dict_lookup k (stock_data w).
Proof.
  intros Hne. destruct (remove_item_cases w item qty) as (w' & -> & Hc).
  cbn. inversion Hc; subst; cbn; auto.
  - apply dict_lookup_remove_ne. congruence.
  - apply dict_lookup_store_ne. congruence.
Qed.

Lemma keys_after_remove w item qty k :
  k ∈ dict_keys (stock_data (remove_item item qty w).2) →
  k ∈ dict_keys (stock_data w).
Proof.
  destruct (remove_item_cases w item qty) as (w' & -> & Hc).
  cbn. inversion Hc; subst; cbn; auto.
  - apply dict_keys_remove.
  - erewrite dict_keys_store_present; eauto.
Qed.

(** ** Reading back the JSON text *)

























(** ** The fuel of the decoder *)

Lemma skip_ws_length cs : (List.length (skip_ws cs) ≤ List.length cs)%nat.
Proof.
  induction cs as [|c cs IH]; cbn; [lia|].
  destruct (is_ws c); cbn; lia.
Qed.

Lemma strip_prefix_length p : ∀ cs r,
  strip_prefix p cs = Some r → (List.length r ≤ List.length cs)%nat.
Proof.
  induction p as [|a p IH]; intros cs r; cbn.
  - now intros [= <-].
  - destruct cs as [|c cs]; [discriminate|].
    destruct (Ascii.eqb a c); [|discriminate].
    intros H. apply IH in H. cbn. lia.
Qed.

Lemma span_digits_length cs :
  (List.length (span_digits cs).2 ≤ List.length cs)%nat.
Proof.
  induction cs as [|c cs IH]; cbn; [lia|].
  destruct (is_digit c); cbn; [|lia].
  destruct (span_digits cs); cbn in *. lia.
Qed.

Lemma match_integer_shorter cs token r :
  match_integer cs = Some (token, r) → (List.length r < List.length cs)%nat.
Proof.
  assert (∀ sign cs1,
            match cs1 with
            | c :: r0 =>
                if Ascii.eqb c "0" then Some (sign ++ [c], r0)
                else if is_digit c then
                  let (ds, r') := span_digits r0 in Some (sign ++ c :: ds, r')
                else None
            | [] => None
            end = Some (token, r) →
            (List.length r < List.length cs1)%nat) as Hbody.
  { intros sign [|c r0]; [discriminate|].
    destruct (Ascii.eqb c "0"); [intros [= _ <-]; cbn; lia|].
    destruct (is_digit c); [|discriminate].
    pose proof (span_digits_length r0) as Hl.
    destruct (span_digits r0) as [ds r']. intros [= _ <-]. cbn in *. lia. }
  unfold match_integer. destruct cs as [|c cs]; [discriminate|].
  destruct (Ascii.eqb c "-") eqn:E.
  - apply Ascii.eqb_eq in E. subst c. intros H. apply Hbody in H. cbn. lia.
  - intros H. apply (Hbody []).
    revert H. clear -E.
    destruct c as [[|] [|] [|] [|] [|] [|] [|] [|]]; try discriminate;
      intros H; exact H.
Qed.

Lemma scan_string_cons_inv cs ch s r :
  ('(s0, r0) ← scan_string cs; mret (String ch s0, r0)) = Return (s, r) →
  ∃ s0, scan_string cs = Return (s0, r).
Proof.
  destruct (scan_string cs) as [[s0 r0]| |]; cbn; try discriminate.
  intros [= _ <-]. eauto.
Qed.

Lemma scan_string_shorter n : ∀ cs s r,
  (List.length cs ≤ n)%nat → scan_string cs = Return (s, r) →
  (List.length r < List.length cs)%nat.
Proof.
  induction n as [|n IH]; intros [|c cs1] s r Hn; cbn [scan_string];
    try discriminate; cbn in Hn; try lia.
  destruct (Ascii.eqb c dquote); [intros [= _ <-]; cbn; lia|].
  destruct (Ascii.eqb c backslash).
  - destruct cs1 as [|e cs2]; [discriminate|]. cbn in Hn.
    assert (∀ ch,
              ('(s0, r0) ← scan_string cs2; mret (String ch s0, r0)) =
                Return (s, r) →
              (List.length r < S (S (List.length cs2)))%nat) as Hsimple.
    { intros ch H. apply scan_string_cons_inv in H as [s0 H].
      apply IH in H; lia. }
    destruct (Ascii.eqb e dquote); [apply Hsimple|].
    destruct (Ascii.eqb e backslash); [apply Hsimple|].
    destruct e as [[|] [|] [|] [|] [|] [|] [|] [|]]; try discriminate;
      try apply Hsimple.
    destruct cs2 as [|h1 [|h2 [|h3 [|h4 cs3]]]]; try discriminate.
    destruct (hex4 h1 h2 h3 h4) as [code|]; [|discriminate].
    destruct (code <? 256)%N; [|discriminate].
    intros H. apply scan_string_cons_inv in H as [s0 H].
    apply IH in H; cbn in *; lia.
  - destruct (N_of_ascii c <? 32)%N; [discriminate|].
    intros H. apply scan_string_cons_inv in H as [s0 H].
    apply IH in H; cbn; lia.
Qed.

Lemma strip_prefix_shorter p cs r :
  p ≠ [] → strip_prefix p cs = Some r → (List.length r < List.length cs)%nat.
Proof.
  destruct p as [|a p]; [congruence|]. intros _. cbn.
  destruct cs as [|c cs]; [discriminate|].
  destruct (Ascii.eqb a c); [|discriminate].
  intros H. apply strip_prefix_length in H. cbn. lia.
Qed.

Lemma outcome_bind_inv {A B} (m : outcome A) (f : A → outcome B) b :
  m ≫= f = Return b → ∃ a, m = Return a ∧ f a = Return b.
Proof. destruct m; cbn; try discriminate. eauto. Qed.

Lemma scan_consumes fuel :
  (∀ cs v r, scan_once fuel cs = Return (v, r) →
             (List.length r < List.length cs)%nat) ∧
  (∀ cs pairs v r, object_members fuel cs pairs = Return (v, r) →
                   (List.length r < List.length cs)%nat) ∧
  (∀ cs elems v r, array_elements fuel cs elems = Return (v, r) →
                   (List.length r < List.length cs)%nat).
Proof.
  induction fuel as [|fuel (IHs & IHo & IHa)];
    [repeat split; intros; discriminate|].
  split; [|split].
  - intros [|c cs1] v r; cbn [scan_once]; [discriminate|].
    destruct (Ascii.eqb c dquote).
    { intros H. apply outcome_bind_inv in H as ([s r0] & H & [= _ <-]).
      apply (scan_string_shorter _ _ _ _ (Nat.le_refl _)) in H. cbn. lia. }
    destruct (Ascii.eqb c "{").
    { pose proof (skip_ws_length cs1) as Hws.
      destruct (skip_ws cs1) as [|c2 cs2]; [discriminate|]. cbn in Hws.
      destruct (Ascii.eqb c2 "}"); [intros [= _ <-]; cbn; lia|].
      destruct (Ascii.eqb c2 dquote); [|discriminate].
      intros H. apply IHo in H. cbn. lia. }
    destruct (Ascii.eqb c "[").
    { pose proof (skip_ws_length cs1) as Hws.
      destruct (skip_ws cs1) as [|c2 cs2]; [discriminate|]. cbn in Hws.
      destruct (Ascii.eqb c2 "]"); [intros [= _ <-]; cbn; lia|].
      intros H. apply IHa in H. cbn in *. lia. }
    destruct (strip_prefix (chars "null") (c :: cs1)) as [r0|] eqn:E1.
    { intros [= _ <-]. now apply strip_prefix_shorter in E1. }
    destruct (strip_prefix (chars "true") (c :: cs1)) as [r0|] eqn:E2.
    { intros [= _ <-]. now apply strip_prefix_shorter in E2. }
    destruct (strip_prefix (chars "false") (c :: cs1)) as [r0|] eqn:E3.
    { intros [= _ <-]. now apply strip_prefix_shorter in E3. }
    destruct (match_integer (c :: cs1)) as [[token r0]|] eqn:E4.
    { destruct (starts_fraction_or_exponent r0); [discriminate|].
      intros H. apply outcome_bind_inv in H as (v0 & _ & [= _ <-]).
      now apply match_integer_shorter in E4. }
    destruct (strip_prefix (chars "NaN") (c :: cs1)),
      (strip_prefix (chars "Infinity") (c :: cs1)),
      (strip_prefix (chars "-Infinity") (c :: cs1)); discriminate.
  - intros cs pairs v r; cbn [object_members].
    intros H. apply outcome_bind_inv in H as ([key cs1] & Hk & H).
    apply (scan_string_shorter _ _ _ _ (Nat.le_refl _)) in Hk.
    pose proof (skip_ws_length cs1) as Hws1.
    destruct (skip_ws cs1) as [|c2 cs2]; [discriminate|]. cbn in Hws1.
    destruct (Ascii.eqb c2 ":"); [|discriminate].
    apply outcome_bind_inv in H as ([v0 cs3] & Hv & H).
    apply IHs in Hv. pose proof (skip_ws_length cs2) as Hws2.
    pose proof (skip_ws_length cs3) as Hws3.
    destruct (skip_ws cs3) as [|c4 cs4]; [discriminate|]. cbn in Hws3.
    destruct (Ascii.eqb c4 "}"); [injection H as _ <-; lia|].
    destruct (Ascii.eqb c4 ","); [|discriminate].
    pose proof (skip_ws_length cs4) as Hws4.
    destruct (skip_ws cs4) as [|c5 cs5]; [discriminate|]. cbn in Hws4.
    destruct (Ascii.eqb c5 dquote); [|discriminate].
    apply IHo in H. lia.
  - intros cs elems v r; cbn [array_elements].
    intros H. apply outcome_bind_inv in H as ([v0 cs1] & Hv & H).
    apply IHs in Hv. pose proof (skip_ws_length cs1) as Hws1.
    destruct (skip_ws cs1) as [|c2 cs2]; [discriminate|]. cbn in Hws1.
    destruct (Ascii.eqb c2 "]"); [injection H as _ <-; lia|].
    destruct (Ascii.eqb c2 ","); [|discriminate].
    pose proof (skip_ws_length cs2) as Hws2.
    apply IHa in H. lia.
Qed.

Lemma scan_fuel f1 : ∀ f2,
  (∀ cs, (2 * List.length cs < f1)%nat → (2 * List.length cs < f2)%nat →
         scan_once f1 cs = scan_once f2 cs) ∧
  (∀ cs pairs,
     (2 * List.length cs + 1 < f1)%nat → (2 * List.length cs + 1 < f2)%nat →
     object_members f1 cs pairs = object_members f2 cs pairs) ∧
  (∀ cs elems,
     (2 * List.length cs + 1 < f1)%nat → (2 * List.length cs + 1 < f2)%nat →
     array_elements f1 cs elems = array_elements f2 cs elems).
Proof.
  induction f1 as [|f1 IH]; intros [|f2];
    try (repeat split; intros; lia).
  destruct (IH f2) as (IHs & IHo & IHa). clear IH.
  split; [|split].
  - intros [|c cs1] H1 H2; cbn [scan_once]; [reflexivity|].
    cbn [List.length] in H1, H2.
    destruct (Ascii.eqb c dquote); [reflexivity|].
    destruct (Ascii.eqb c "{").
    { pose proof (skip_ws_length cs1) as Hws.
      destruct (skip_ws cs1) as [|c2 cs2]; [reflexivity|]. cbn in Hws.
      destruct (Ascii.eqb c2 "}"); [reflexivity|].
      destruct (Ascii.eqb c2 dquote); [|reflexivity].
      apply IHo; lia. }
    destruct (Ascii.eqb c "[").
    { pose proof (skip_ws_length cs1) as Hws.
      destruct (skip_ws cs1) as [|c2 cs2]; [reflexivity|].
      destruct (Ascii.eqb c2 "]"); [reflexivity|].
      apply IHa; lia. }
    reflexivity.
  - intros cs pairs H1 H2; cbn [object_members].
    destruct (scan_string cs) as [[key cs1]| |] eqn:Hk; try reflexivity.
    apply (scan_string_shorter _ _ _ _ (Nat.le_refl _)) in Hk.
    cbn [mbind outcome_bind].
    pose proof (skip_ws_length cs1) as Hws1.
    destruct (skip_ws cs1) as [|c2 cs2]; [reflexivity|]. cbn in Hws1.
    destruct (Ascii.eqb c2 ":"); [|reflexivity].
    pose proof (skip_ws_length cs2) as Hws2.
    rewrite (IHs (skip_ws cs2)) by lia.
    destruct (scan_once f2 (skip_ws cs2)) as [[v0 cs3]| |] eqn:Hv;
      try reflexivity.
    apply (proj1 (scan_consumes f2)) in Hv.
    cbn [mbind outcome_bind].
    pose proof (skip_ws_length cs3) as Hws3.
    destruct (skip_ws cs3) as [|c4 cs4]; [reflexivity|]. cbn in Hws3.
    destruct (Ascii.eqb c4 "}"); [reflexivity|].
    destruct (Ascii.eqb c4 ","); [|reflexivity].
    pose proof (skip_ws_length cs4) as Hws4.
    destruct (skip_ws cs4) as [|c5 cs5]; [reflexivity|]. cbn in Hws4.
    destruct (Ascii.eqb c5 dquote); [|reflexivity].
    apply IHo; lia.
  - intros cs elems H1 H2; cbn [array_elements].
    rewrite (IHs cs) by lia.
    destruct (scan_once f2 cs) as [[v0 cs1]| |] eqn:Hv; try reflexivity.
    apply (proj1 (scan_consumes f2)) in Hv.
    cbn [mbind outcome_bind].
    pose proof (skip_ws_length cs1) as Hws1.
    destruct (skip_ws cs1) as [|c2 cs2]; [reflexivity|]. cbn in Hws1.
    destruct (Ascii.eqb c2 "]"); [reflexivity|].
    destruct (Ascii.eqb c2 ","); [|reflexivity].
    pose proof (skip_ws_length cs2) as Hws2.
    apply IHa; lia.
Qed.

(** More fuel than [json_loads] gives changes nothing: the fuel is never
    used up. *)
Lemma scan_once_fuel cs extra :
  scan_once (S (2 * List.length cs) + extra) (skip_ws cs) =
  scan_once (S (2 * List.length cs)) (skip_ws cs).
Proof. pose proof (skip_ws_length cs). apply scan_fuel; lia. Qed.

(** ** Which values [json.dump] writes in full *)



(** ** Where [print_data] stops *)



(** ** Saving and loading *)

(** Whether a path opens depends on the path and the files alone. *)
Lemma open_for_writing_files w1 w file :
  files w1 = files w →
  (open_for_writing file w1).1 = (open_for_writing file w).1.
Proof.
  intros Hf. unfold open_for_writing. destruct (bad_path file); [reflexivity|].
  run. rewrite Hf. now destruct (files w !! file) as [[content| |]|].
Qed.

Lemma open_for_writing_file w file content :
  bad_path file = None → files w !! file = Some (File content) →
  (open_for_writing file w).1 = Return tt.
Proof.
  intros Hp Hf. unfold open_for_writing. rewrite Hp. run. now rewrite Hf.
Qed.



(** ** The claims *)

(** C1, the claim as stated fails: adding -5 to an item held 5 times leaves
    the item on record with quantity 0. *)
Lemma add_item_breaks_invariant :
  invariant [("apple", VInt 5)] = true ∧
  add_item (VStr "apple") (VInt (-5)) "now" (fresh [("apple", VInt 5)]) =
    (Return tt,
     after_add "apple" (VInt (-5)) 0 "now" (fresh [("apple", VInt 5)])) ∧
  stock_data
    (after_add "apple" (VInt (-5)) 0 "now" (fresh [("apple", VInt 5)])) =
    [("apple", VInt 0)] ∧
  invariant [("apple", VInt 0)] = false.
Proof. split; [|split; [|split]]; reflexivity. Qed.

(** C1, as amended.  On an inventory whose quantities are all positive
    integers, [remove_item], [get_qty] and [check_low_items] leave every
    quantity a positive integer, whatever their arguments, and so does a
    rejected [add_item]; an accepted [add_item] does so exactly when the
    quantity it stores, the one on record (0 if none) plus the one added, is
    above zero. *)
Theorem invariant_after_operation w :
  invariant (stock_data w) = true →
  (∀ item qty, invariant (stock_data (remove_item item qty w).2) = true) ∧
  (∀ item, invariant (stock_data (get_qty item w).2) = true) ∧
  (∀ threshold,
     invariant (stock_data (check_low_items threshold w).2) = true) ∧
  (∀ item qty now,
     valid_item item = false ∨ isinstance_int qty = false →
     invariant (stock_data (add_item item qty now w).2) = true) ∧
  (∀ name qty n now,
     name ≠ "" → as_int qty = Some n →
     invariant (stock_data (add_item (VStr name) qty now w).2) =
       (0 <? quantity_of name (stock_data w) + n)).
Proof.
  intros Hinv. repeat split.
  - intros item qty.
    destruct (remove_item_cases w item qty) as (w' & -> & Hc). cbn.
    inversion Hc; subst; cbn; auto.
    + now apply invariant_remove.
    + apply invariant_store; auto. unfold positive_quantity. cbn.
      now apply Z.ltb_lt.
  - intros item. now rewrite get_qty_run.
  - intros threshold. now rewrite check_low_items_world.
  - intros item qty now H. now rewrite add_item_rejects.
  - intros name qty n now Hname Hn.
    assert (as_int (stored name (stock_data w)) =
            Some (quantity_of name (stock_data w))) as Hq.
    { unfold stored, quantity_of.
      destruct (dict_lookup name (stock_data w)) as [v|] eqn:Hl; auto.
      pose proof (invariant_lookup _ _ _ Hinv Hl) as Hp.
      unfold positive_quantity in Hp. now destruct (as_int v). }
    rewrite (add_item_stores w name qty n _ now Hname Hn Hq).
    destruct (0 <? quantity_of name (stock_data w) + n) eqn:E.
    + apply invariant_store; auto.
    + match goal with |- ?lhs = false => destruct lhs eqn:E' end; auto.
      apply invariant_store_inv in E'. unfold positive_quantity in E'.
      cbn in E'. congruence.
Qed.

(** The demo inventory keeps its invariant when three apples are removed. *)
Lemma invariant_after_operation_witness :
  invariant demo_stock = true ∧
  invariant
    (stock_data (remove_item (VStr "apple") (VInt 3) (fresh demo_stock)).2) =
    true.
Proof.
  split; [reflexivity|].
  apply (invariant_after_operation (fresh demo_stock)). reflexivity.
Defined.

(** C2, the claim as stated fails: an integer of 4301 digits is stored, but
    the log message of [add_item] does not render it and the [ValueError]
    goes up to the caller, so that the sequence never reaches [get_qty]. *)
Lemma add_then_get_qty_fails :
  (add_each (VStr "apple") [(str_limit, "now")];; get_qty (VStr "apple"))
    (fresh []) =
    (Raise ValueError, fresh [("apple", VInt str_limit)]).
Proof.
  assert (add_item (VStr "apple") (VInt str_limit) "now" (fresh []) =
          (Raise ValueError, fresh [("apple", VInt str_limit)])) as H.
  { apply (add_item_unrendered (fresh []) "apple" (VInt str_limit) str_limit 0);
      [discriminate|reflexivity|reflexivity|].
    apply int_fits_large. pose proof str_limit_pos. lia. }
  unfold mbind at 1, M_bind. cbn [add_each]. unfold mbind at 1, M_bind.
  now rewrite H.
Qed.

(** C2, as amended.  Starting from an inventory without the item, adding a
    sequence of integer quantities of at most 4300 digits each under a
    non-empty name and then asking for its quantity returns their sum; a
    quantity of more digits is added to what is stored, and then [add_item]
    raises [ValueError]. *)
Theorem add_then_get_qty w name adds :
  name ≠ "" → dict_lookup name (stock_data w) = None →
  (Forall (fun a => Z.abs a.1 < str_limit) adds →
   ∃ w', (add_each (VStr name) adds;; get_qty (VStr name)) w =
           (Return (VInt (sum_of adds)), w')) ∧
  (∀ n now, str_limit <= Z.abs n →
     add_item (VStr name) (VInt n) now w =
       (Raise ValueError,
        set_stock_data (dict_store name (VInt n) (stock_data w)) w)).
Proof.
  intros Hname Habsent. split.
  - intros Hfit.
    destruct (add_each_accumulates name adds w 0 Hname) as (w' & Hrun & Hst);
      [unfold stored; now rewrite Habsent|exact Hfit|].
    exists w'. unfold mbind, M_bind. rewrite Hrun, get_qty_run. cbn.
    now rewrite Hst.
  - intros n now Hn.
    rewrite (add_item_unrendered w name (VInt n) n 0 now); auto.
    + unfold stored. now rewrite Habsent.
    + now apply int_fits_large.
Qed.

(** Adding 5 and then -2 bananas to an inventory without bananas. *)
Lemma add_then_get_qty_witness :
  ∃ w', (add_each (VStr "banana") [(5, "t1"); (-2, "t2")];;
         get_qty (VStr "banana")) (fresh [("apple", VInt 10)]) =
          (Return (VInt 3), w').
Proof.
  apply (add_then_get_qty (fresh [("apple", VInt 10)]) "banana"
           [(5, "t1"); (-2, "t2")]); [discriminate|reflexivity|].
  repeat constructor; vm_compute; reflexivity.
Defined.

(** C3.  Removing an integer quantity of an item on record with an integer
    quantity: when what is left is zero or less the key is deleted, so that
    it is no longer among the keys and [get_qty] returns 0; otherwise the
    key stays with what is left, which is positive. *)
Theorem remove_item_present w name qty n old :
  name ≠ "" → as_int qty = Some n →
  int_valued (stock_data w) = true →
  dict_lookup name (stock_data w) = Some old →
  ∃ w', remove_item (VStr name) qty w = (Return tt, w') ∧
    (let left := quantity_of name (stock_data w) - n in
     match left <=? 0 with
     | true =>
         dict_lookup name (stock_data w') = None ∧
         (name ∉ dict_keys (stock_data w')) ∧
         get_qty (VStr name) w' = (Return (VInt 0), w')
     | false =>
         dict_lookup name (stock_data w') = Some (VInt left) ∧ 0 < left
     end).
Proof.
  intros Hname Hn Hint Hl.
  destruct (int_valued_lookup _ _ _ Hint Hl) as [q Hq].
  assert (quantity_of name (stock_data w) = q) as ->.
  { unfold quantity_of. now rewrite Hl, Hq. }
  cbv zeta. destruct (q - n <=? 0) eqn:E.
  - apply Z.leb_le in E. eexists. split.
    + eapply remove_item_deletes; eauto.
    + cbn. rewrite get_qty_run. cbn. unfold stored. cbn.
      rewrite dict_lookup_remove_eq. repeat split; auto.
      apply dict_lookup_None, dict_lookup_remove_eq.
  - apply Z.leb_gt in E. eexists. split.
    + eapply remove_item_reduces; eauto.
    + cbn. now rewrite dict_lookup_store_eq.
Qed.

(** Removing all ten apples of the demo inventory deletes the key. *)
Lemma remove_item_present_witness :
  ∃ w', remove_item (VStr "apple") (VInt 10) (fresh demo_stock) =
          (Return tt, w') ∧
        dict_lookup "apple" (stock_data w') = None ∧
        ("apple" ∉ dict_keys (stock_data w')) ∧
        get_qty (VStr "apple") w' = (Return (VInt 0), w').
Proof.
  apply (remove_item_present (fresh demo_stock) "apple" (VInt 10) 10 (VInt 10));
    [discriminate|reflexivity|reflexivity|reflexivity].
Defined.

(** C4.  When the item is not a non-empty string or the quantity is not an
    integer, [add_item] and [remove_item] both return after logging the same
    single warning and change nothing else: neither the inventory nor the
    caller's log list. *)
Theorem invalid_input_is_rejected w item qty now :
  valid_item item = false ∨ isinstance_int qty = false →
  add_item item qty now w = (Return tt, log_more (rejection item qty) w) ∧
  remove_item item qty w = (Return tt, log_more (rejection item qty) w) ∧
  levelname (rejection item qty) = WARNING ∧
  stock_data (log_more (rejection item qty) w) = stock_data w ∧
  logs (log_more (rejection item qty) w) = logs w.
Proof.
  intros H. repeat split.
  - now apply add_item_rejects.
  - now apply remove_item_rejects.
  - unfold rejection. now destruct (valid_item item).
Qed.

(** The rejected call of the demo: item 123, quantity "ten". *)
Lemma invalid_input_is_rejected_witness :
  add_item (VInt 123) (VStr "ten") "now" (fresh demo_stock) =
    (Return tt, log_more (invalid_name_warning (VInt 123)) (fresh demo_stock)).
Proof.
  apply (invalid_input_is_rejected (fresh demo_stock) (VInt 123) (VStr "ten")
           "now"). left. reflexivity.
Defined.

(** C5.  Removing an item that is not in the inventory logs one warning,
    raises nothing and leaves the inventory as it was. *)
Theorem remove_absent_item w name qty :
  name ≠ "" → isinstance_int qty = true →
  dict_lookup name (stock_data w) = None →
  remove_item (VStr name) qty w =
    (Return tt, log_more (missing_item_warning name) w) ∧
  levelname (missing_item_warning name) = WARNING ∧
  stock_data (log_more (missing_item_warning name) w) = stock_data w.
Proof.
  intros. repeat split. now apply remove_item_missing.
Qed.

(** The demo removes an orange that was never added. *)
Lemma remove_absent_item_witness :
  remove_item (VStr "orange") (VInt 1) (fresh demo_stock) =
    (Return tt, log_more (missing_item_warning "orange") (fresh demo_stock)).
Proof.
  apply (remove_absent_item (fresh demo_stock) "orange" (VInt 1));
    [discriminate|reflexivity|reflexivity].
Defined.




(** C7.  [check_low_items] never changes the world; whatever it returns
    is exactly the items whose quantity is below the threshold, in the
    dict's order; on an inventory of integer quantities and an integer
    threshold it does return, and the comparison is the one of the
    integers; with the default threshold 5 on apple 10, banana 3 it returns
    just banana. *)
Theorem check_low_items_spec :
  (∀ w threshold, (check_low_items threshold w).2 = w) ∧
  (∀ w threshold items,
     (check_low_items threshold w).1 = Return items →
     items =
       dict_keys
         (List.filter (fun kv => is_below threshold kv.2) (stock_data w))) ∧
  (∀ w threshold t,
     int_valued (stock_data w) = true → as_int threshold = Some t →
     check_low_items threshold w =
       (Return (items_below t (stock_data w)), w)) ∧
  check_low_items default_threshold (fresh demo_stock) =
    (Return ["banana"], fresh demo_stock).
Proof.
  split; [|split; [|split]].
  - apply check_low_items_world.
  - intros w threshold items. unfold check_low_items. run.
    destruct (low_items (stock_data w) threshold) eqn:E; cbn;
      try discriminate.
    intros [= <-]. now apply low_items_returned.
  - intros w threshold t Hint Ht. unfold check_low_items. run.
    now rewrite (low_items_int _ _ _ Hint Ht).
  - reflexivity.
Qed.

(** With threshold 11 both items of the demo inventory are low. *)
Lemma check_low_items_spec_witness :
  check_low_items (VInt 11) (fresh demo_stock) =
    (Return ["apple"; "banana"], fresh demo_stock).
Proof.
  apply (proj1 (proj2 (proj2 check_low_items_spec))
           (fresh demo_stock) (VInt 11) 11);
    reflexivity.
Defined.

(** C8, the claim as stated fails: asked for an item that does not hash, a
    list, [get_qty] raises [TypeError]. *)
Lemma get_qty_unhashable_item :
  get_qty (VList [VStr "apple"]) (fresh demo_stock) =
    (Raise TypeError, fresh demo_stock).
Proof. reflexivity. Qed.

(** C8, as amended.  [get_qty] never changes the world, and for every
    hashable item it returns the stored quantity when the item is a key of
    the inventory and 0 when it is not. *)
Theorem get_qty_spec w item :
  (get_qty item w).2 = w ∧
  (hashable item = true →
   get_qty item w =
     (Return match item with
             | VStr name =>
                 match dict_lookup name (stock_data w) with
                 | Some quantity => quantity
                 | None => VInt 0
                 end
             | _ => VInt 0
             end, w)).
Proof.
  rewrite get_qty_run. split; [reflexivity|]. now intros ->.
Qed.

(** An item on record and an item that is not. *)
Lemma get_qty_spec_witness :
  get_qty (VStr "banana") (fresh demo_stock) = (Return (VInt 3), fresh demo_stock) ∧
  get_qty (VStr "orange") (fresh demo_stock) = (Return (VInt 0), fresh demo_stock).
Proof.
  split.
  - apply (proj2 (get_qty_spec (fresh demo_stock) (VStr "banana"))). reflexivity.
  - apply (proj2 (get_qty_spec (fresh demo_stock) (VStr "orange"))). reflexivity.
Defined.




(** C10.  Whatever the item and the quantity, [add_item] and [remove_item]
    leave the presence and the quantity of every other key as they were,
    and [remove_item] adds no key. *)
Theorem other_keys_untouched w item qty now k :
  VStr k ≠ item →
  dict_lookup k (stock_data (add_item item qty now w).2) =
    dict_lookup k (stock_data w) ∧
  dict_lookup k (stock_data (remove_item item qty w).2) =
    dict_lookup k (stock_data w) ∧
  (∀ k', k' ∈ dict_keys (stock_data (remove_item item qty w).2) →
         k' ∈ dict_keys (stock_data w)).
Proof.
  intros Hne. repeat split.
  - now apply stock_after_add.
  - now apply stock_after_remove.
  - intros k'. apply keys_after_remove.
Qed.

(** Adding apples leaves the bananas alone. *)
Lemma other_keys_untouched_witness :
  dict_lookup "banana"
    (stock_data (add_item (VStr "apple") (VInt 4) "now" (fresh demo_stock)).2) =
    Some (VInt 3).
Proof.
  apply (other_keys_untouched (fresh demo_stock) (VStr "apple") (VInt 4) "now"
           "banana"). discriminate.
Defined.

(* ===================================================================== *)
(** * Further properties of the module *)

(** ** Keys, order and well-formedness *)

Lemma dict_remove_absent k d : dict_lookup k d = None → dict_remove k d = d.
Proof.
  induction d as [|[k' v'] d IH]; cbn; [reflexivity|].
  destruct (String.eqb k k'); [discriminate|]. intros H. now rewrite IH.
Qed.

Lemma dict_keys_store_absent k v d :
  dict_lookup k d = None → dict_keys (dict_store k v d) = dict_keys d ++ [k].
Proof.
  unfold dict_keys. induction d as [|[k' v'] d IH]; cbn; [reflexivity|].
  destruct (String.eqb k k'); [discriminate|]. intros H. cbn. now rewrite IH.
Qed.

Lemma dict_keys_remove_filter k d :
  dict_keys (dict_remove k d) =
  List.filter (fun k' => negb (String.eqb k k')) (dict_keys d).
Proof.
  unfold dict_keys. induction d as [|[k' v'] d IH]; cbn; [reflexivity|].
  destruct (String.eqb k k'); cbn; now rewrite IH.
Qed.

Lemma dict_wf_store k v d : dict_wf d → dict_wf (dict_store k v d).
Proof.
  unfold dict_wf. intros Hwf.
  destruct (dict_lookup k d) as [v0|] eqn:E.
  - now rewrite (dict_keys_store_present k v v0 d E).
  - rewrite (dict_keys_store_absent k v d E).
    apply NoDup_app. repeat split; auto.
    + intros x Hx Hx'. apply list_elem_of_singleton in Hx'. subst x.
      now apply dict_lookup_None in E.
    + apply NoDup_singleton.
Qed.

Lemma dict_wf_remove k d : dict_wf d → dict_wf (dict_remove k d).
Proof.
  unfold dict_wf, dict_keys. induction d as [|[k' v'] d IH]; cbn; auto.
  intros Hwf. apply NoDup_cons in Hwf as [Hn Hwf].
  destruct (String.eqb k k'); cbn; auto.
  apply NoDup_cons. split; auto.
  intros Hin. apply Hn. now apply (dict_keys_remove k k' d).
Qed.

Lemma int_valued_store k v d :
  int_valued d = true → isinstance_int v = true →
  int_valued (dict_store k v d) = true.
Proof.
  unfold int_valued. intros Hd Hv.
  induction d as [|[k' v'] d IH]; cbn in *.
  - now rewrite Hv.
  - apply andb_prop in Hd as [H1 H2].
    destruct (String.eqb k k'); cbn.
    + now rewrite Hv, H2.
    + now rewrite H1, IH.
Qed.

Lemma int_valued_remove k d :
  int_valued d = true → int_valued (dict_remove k d) = true.
Proof.
  unfold int_valued. intros Hd.
  induction d as [|[k' v'] d IH]; cbn in *; auto.
  apply andb_prop in Hd as [H1 H2].
  destruct (String.eqb k k'); cbn; auto. now rewrite H1, IH.
Qed.

(** ** [add_item] and [remove_item] *)

(** Accepted adds are recorded one by one: a run of adds of quantities of
    at most 4300 digits each under one name appends one entry per add, in
    order, to the caller's list and logs the same entries at level INFO; it
    prints nothing and leaves the files alone. *)
Theorem add_each_log_entries name adds : ∀ w q,
  name ≠ "" → as_int (stored name (stock_data w)) = Some q →
  Forall (fun a => Z.abs a.1 < str_limit) adds →
  ∃ w', add_each (VStr name) adds w = (Return tt, w') ∧
        logs w' = option_map (fun l => l ++ add_messages name adds) (logs w) ∧
        logging w' =
          logging w ++ map (LogRecord INFO) (add_messages name adds) ∧
        stdout w' = stdout w ∧ files w' = files w.
Proof.
  induction adds as [|[n now] adds IH]; intros w q Hname Hq Hfit.
  - exists w. cbn. rewrite app_nil_r. repeat split.
    destruct (logs w); cbn; [now rewrite app_nil_r|reflexivity].
  - apply Forall_cons in Hfit as [Hn Hfit]. cbn [fst] in Hn.
    destruct (IH (after_add name (VInt n) (q + n) now w) (q + n) Hname)
      as (w' & Hrun & Hlogs & Hlogging & Hout & Hfiles);
      [now rewrite stored_after_add|exact Hfit|].
    exists w'. split; [|split; [|split; [|split]]].
    + cbn [add_each]. unfold mbind at 1, M_bind.
      now rewrite (add_item_adds w name (VInt n) n q now Hname eq_refl Hq
                     (int_fits_small n Hn)).
    + rewrite Hlogs. cbn. destruct (logs w); cbn; [|reflexivity].
      now rewrite <- app_assoc.
    + rewrite Hlogging. cbn. now rewrite <- app_assoc.
    + now rewrite Hout.
    + now rewrite Hfiles.
Qed.

(** Two adds to the demo inventory leave two entries in an empty list. *)
Lemma add_each_log_entries_witness :
  ∃ w', add_each (VStr "apple") [(1, "t1"); (2, "t2")]
          (set_logs (Some []) (fresh demo_stock)) = (Return tt, w') ∧
        logs w' = Some [add_message "t1" (VInt 1) "apple";
                        add_message "t2" (VInt 2) "apple"].
Proof.
  destruct (add_each_log_entries "apple" [(1, "t1"); (2, "t2")]
              (set_logs (Some []) (fresh demo_stock)) 10)
    as (w' & Hrun & Hlogs & _);
    [discriminate|reflexivity|repeat constructor; vm_compute; reflexivity|].
  exists w'. split; [exact Hrun|exact Hlogs].
Defined.

(** [add_item] has no handler around its sum: when the value on record
    under the item is not an integer the [TypeError] of [+] reaches the
    caller, before anything is stored, appended or logged. *)
Theorem add_item_raises_type_error w name qty old now :
  name ≠ "" → isinstance_int qty = true →
  dict_lookup name (stock_data w) = Some old → isinstance_int old = false →
  add_item (VStr name) qty now w = (Raise TypeError, w).
Proof.
  intros Hname Hqty Hl Hold. apply add_item_type_error; auto.
  unfold stored. rewrite Hl. destruct old; try discriminate; reflexivity.
Qed.

(** An item loaded with a string as its quantity. *)
Lemma add_item_raises_type_error_witness :
  add_item (VStr "apple") (VInt 1) "now" (fresh [("apple", VStr "ten")]) =
    (Raise TypeError, fresh [("apple", VStr "ten")]).
Proof.
  apply (add_item_raises_type_error (fresh [("apple", VStr "ten")]) "apple"
           (VInt 1) (VStr "ten") "now");
    [discriminate|reflexivity|reflexivity|reflexivity].
Defined.

(** Adding a quantity under a name that is not in the inventory and
    removing the same quantity again gives back the inventory as it was,
    for every integer quantity of at most 4300 digits: the sum left is 0 and
    the key goes. *)
Theorem add_then_remove_restores w name qty n now :
  name ≠ "" → as_int qty = Some n → Z.abs n < str_limit →
  dict_lookup name (stock_data w) = None →
  ∃ w', (add_item (VStr name) qty now;; remove_item (VStr name) qty) w =
          (Return tt, w') ∧
        stock_data w' = stock_data w.
Proof.
  intros Hname Hn Hfit Habs.
  assert (as_int (stored name (stock_data w)) = Some 0) as Hq.
  { unfold stored. now rewrite Habs. }
  assert (renders qty = true) as Hr by now apply (renders_int_like qty n).
  eexists. split.
  - unfold mbind at 1, M_bind.
    rewrite (add_item_adds w name qty n 0 now Hname Hn Hq Hr).
    eapply (remove_item_deletes _ name qty n (VInt (0 + n)) (0 + n));
      auto; [|lia].
    cbn. apply dict_lookup_store_eq.
  - cbn. rewrite dict_remove_store. now apply dict_remove_absent.
Qed.

(** Oranges added to the demo inventory and removed again. *)
Lemma add_then_remove_restores_witness :
  ∃ w', (add_item (VStr "orange") (VInt 4) "now";;
         remove_item (VStr "orange") (VInt 4)) (fresh demo_stock) =
          (Return tt, w') ∧
        stock_data w' = demo_stock.
Proof.
  apply (add_then_remove_restores (fresh demo_stock) "orange" (VInt 4) 4 "now");
    [discriminate|reflexivity|vm_compute; reflexivity|reflexivity].
Defined.

(** Adding [-n] and removing [n] store the same quantity as long as what is
    left is positive; when it is not, they part: [add_item] keeps the key
    with the quantity left, zero or negative, and [remove_item] deletes
    it. *)
Theorem negative_add_versus_remove w name n old q now :
  name ≠ "" →
  dict_lookup name (stock_data w) = Some old → as_int old = Some q →
  (0 < q - n →
   stock_data (add_item (VStr name) (VInt (- n)) now w).2 =
     dict_store name (VInt (q - n)) (stock_data w) ∧
   stock_data (remove_item (VStr name) (VInt n) w).2 =
     dict_store name (VInt (q - n)) (stock_data w)) ∧
  (q - n <= 0 →
   dict_lookup name (stock_data (add_item (VStr name) (VInt (- n)) now w).2) =
     Some (VInt (q - n)) ∧
   dict_lookup name (stock_data (remove_item (VStr name) (VInt n) w).2) =
     None).
Proof.
  intros Hname Hl Hq.
  assert (as_int (stored name (stock_data w)) = Some q) as Hs.
  { unfold stored. now rewrite Hl. }
  rewrite (add_item_stores w name (VInt (- n)) (- n) q now Hname eq_refl Hs).
  replace (q + - n) with (q - n) by lia. split; intros H.
  - rewrite (remove_item_reduces w name (VInt n) n old q Hname eq_refl Hl Hq H).
    split; reflexivity.
  - rewrite (remove_item_deletes w name (VInt n) n old q Hname eq_refl Hl Hq H).
    cbn. split; [apply dict_lookup_store_eq|apply dict_lookup_remove_eq].
Qed.

(** Three apples less out of ten, and three bananas less out of three. *)
Lemma negative_add_versus_remove_witness :
  stock_data (add_item (VStr "apple") (VInt (-3)) "now" (fresh demo_stock)).2 =
    [("apple", VInt 7); ("banana", VInt 3)] ∧
  dict_lookup "banana"
    (stock_data (add_item (VStr "banana") (VInt (-3)) "now"
                   (fresh demo_stock)).2) = Some (VInt 0).
Proof.
  split.
  - apply (proj1 (negative_add_versus_remove (fresh demo_stock) "apple" 3
                    (VInt 10) 10 "now" ltac:(discriminate) eq_refl eq_refl)).
    reflexivity.
  - apply (proj2 (negative_add_versus_remove (fresh demo_stock) "banana" 3
                    (VInt 3) 3 "now" ltac:(discriminate) eq_refl eq_refl)).
    discriminate.
Defined.

(** The inventory keeps its insertion order: an accepted add leaves the
    keys where they are and puts a new key last; whatever happens, the keys
    there were still come first, in their order. *)
Theorem add_item_key_order w item qty now :
  (∀ name n q,
     item = VStr name → name ≠ "" → as_int qty = Some n →
     as_int (stored name (stock_data w)) = Some q →
     dict_keys (stock_data (add_item item qty now w).2) =
       match dict_lookup name (stock_data w) with
       | Some _ => dict_keys (stock_data w)
       | None => dict_keys (stock_data w) ++ [name]
       end) ∧
  dict_keys (stock_data w) `prefix_of`
    dict_keys (stock_data (add_item item qty now w).2).
Proof.
  split.
  - intros name n q -> Hname Hn Hq.
    rewrite (add_item_stores w name qty n q now Hname Hn Hq).
    destruct (dict_lookup name (stock_data w)) as [v0|] eqn:E.
    + now apply dict_keys_store_present with v0.
    + now apply dict_keys_store_absent.
  - destruct (add_item_cases w item qty now) as (r & w' & -> & Hc).
    cbn. inversion Hc; subst; cbn; try reflexivity;
      (destruct (dict_lookup name (stock_data w)) as [v0|] eqn:E;
       [now rewrite (dict_keys_store_present name _ v0 _ E)
       |rewrite (dict_keys_store_absent name _ _ E); now apply prefix_app_r]).
Qed.

(** Oranges added to the demo inventory go last. *)
Lemma add_item_key_order_witness :
  dict_keys
    (stock_data (add_item (VStr "orange") (VInt 2) "now" (fresh demo_stock)).2) =
    ["apple"; "banana"; "orange"].
Proof.
  apply (proj1 (add_item_key_order (fresh demo_stock) (VStr "orange") (VInt 2)
                  "now") "orange" 2 0);
    [reflexivity|discriminate|reflexivity|reflexivity].
Defined.

(** [remove_item] never reorders: the keys after it are the keys before,
    without the item when it deleted it. *)
Theorem remove_item_key_order w item qty :
  dict_keys (stock_data (remove_item item qty w).2) = dict_keys (stock_data w) ∨
  ∃ name, item = VStr name ∧
    dict_keys (stock_data (remove_item item qty w).2) =
      List.filter (fun k => negb (String.eqb name k)) (dict_keys (stock_data w)).
Proof.
  destruct (remove_item_cases w item qty) as (w' & -> & Hc).
  cbn. inversion Hc; subst; cbn; auto.
  - right. exists name. split; auto. apply dict_keys_remove_filter.
  - left. eapply dict_keys_store_present; eauto.
Qed.

(** Both mutations keep the inventory a dict of distinct keys, and keep its
    quantities integers when they were, whatever their arguments. *)
Theorem mutations_keep_shape w item qty now :
  dict_wf (stock_data w) →
  dict_wf (stock_data (add_item item qty now w).2) ∧
  dict_wf (stock_data (remove_item item qty w).2) ∧
  (int_valued (stock_data w) = true →
   int_valued (stock_data (add_item item qty now w).2) = true ∧
   int_valued (stock_data (remove_item item qty w).2) = true).
Proof.
  intros Hwf.
  destruct (add_item_cases w item qty now) as (r & wa & -> & Ha).
  destruct (remove_item_cases w item qty) as (wr & -> & Hr). cbn.
  split; [|split; [|intros Hint; split]].
  - inversion Ha; subst; cbn; auto; now apply dict_wf_store.
  - inversion Hr; subst; cbn; auto.
    + now apply dict_wf_remove.
    + now apply dict_wf_store.
  - inversion Ha; subst; cbn; auto; now apply int_valued_store.
  - inversion Hr; subst; cbn; auto.
    + now apply int_valued_remove.
    + now apply int_valued_store.
Qed.

(** The demo inventory after an add. *)
Lemma mutations_keep_shape_witness :
  dict_wf
    (stock_data (add_item (VStr "orange") (VInt 2) "now" (fresh demo_stock)).2).
Proof.
  apply (mutations_keep_shape (fresh demo_stock) (VStr "orange") (VInt 2) "now").
  apply demo_stock_wf.
Defined.

(** ** [check_low_items] *)

Lemma items_below_elem t d name :
  dict_wf d →
  name ∈ items_below t d ↔
  ∃ v q, dict_lookup name d = Some v ∧ as_int v = Some q ∧ q < t.
Proof.
  unfold items_below, dict_wf, dict_keys.
  induction d as [|[k v] d IH]; intros Hwf; cbn.
  - split; [intros H; inversion H|intros (v & q & [=] & _)].
  - cbn in Hwf. apply NoDup_cons in Hwf as [Hk Hwf]. specialize (IH Hwf).
    destruct (String.eqb name k) eqn:E.
    + apply String.eqb_eq in E. subst k.
      destruct (as_int v) as [q|] eqn:Hq.
      * destruct (q <? t) eqn:Hlt; cbn.
        -- split; [|intros _; constructor].
           intros _. exists v, q. apply Z.ltb_lt in Hlt. auto.
        -- split.
           ++ intros Hin. exfalso. apply Hk.
              apply list_elem_of_fmap in Hin as ([k' v'] & -> & Hin).
              apply list_elem_of_fmap. exists (k', v'). split; auto.
              apply list_elem_of_In, List.filter_In in Hin as [Hin _].
              now apply list_elem_of_In.
           ++ intros (v' & q' & [= <-] & Hq' & Hlt').
              rewrite Hq in Hq'. injection Hq' as <-.
              apply Z.ltb_ge in Hlt. lia.
      * split.
        -- intros Hin. exfalso. apply Hk.
           apply list_elem_of_fmap in Hin as ([k' v'] & -> & Hin).
           apply list_elem_of_fmap. exists (k', v'). split; auto.
           apply list_elem_of_In, List.filter_In in Hin as [Hin _].
           now apply list_elem_of_In.
        -- intros (v' & q' & [= <-] & Hq' & _). congruence.
    + apply String.eqb_neq in E. rewrite <- IH.
      destruct (match as_int v with Some q => q <? t | None => false end);
        cbn; [|reflexivity].
      split; [intros H; inversion H; subst; [contradiction|auto]|].
      intros H. now constructor.
Qed.

(** An item is reported low exactly when it is a key of the inventory and
    the quantity [get_qty] returns for it is below the threshold. *)
Theorem low_item_iff w threshold t :
  dict_wf (stock_data w) → int_valued (stock_data w) = true →
  as_int threshold = Some t →
  ∃ items, check_low_items threshold w = (Return items, w) ∧
    ∀ name, name ∈ items ↔
      ∃ quantity q, dict_lookup name (stock_data w) = Some quantity ∧
                    get_qty (VStr name) w = (Return quantity, w) ∧
                    as_int quantity = Some q ∧ q < t.
Proof.
  intros Hwf Hint Ht. exists (items_below t (stock_data w)). split.
  - unfold check_low_items. run. now rewrite (low_items_int _ _ _ Hint Ht).
  - intros name. rewrite (items_below_elem t _ name Hwf). split.
    + intros (v & q & Hl & Hq & Hlt). exists v, q. repeat split; auto.
      rewrite get_qty_run. cbn. unfold stored. now rewrite Hl.
    + intros (v & q & Hl & _ & Hq & Hlt). eauto.
Qed.

(** In the demo inventory the bananas are low and the apples are not. *)
Lemma low_item_iff_witness :
  ∃ items, check_low_items default_threshold (fresh demo_stock) =
             (Return items, fresh demo_stock) ∧
           "banana" ∈ items ∧ ("apple" ∉ items).
Proof.
  destruct (low_item_iff (fresh demo_stock) default_threshold 5
              demo_stock_wf eq_refl eq_refl) as (items & Hrun & Hiff).
  exists items. split; [exact Hrun|]. split.
  - apply Hiff. exists (VInt 3), 3. repeat split.
  - intros Hin. apply Hiff in Hin as (v & q & Hl & _ & Hq & Hlt).
    cbn in Hl. injection Hl as <-. injection Hq as <-. lia.
Defined.

Lemma items_below_mono t1 t2 d :
  t1 <= t2 → items_below t1 d `sublist_of` items_below t2 d.
Proof.
  intros Hle. unfold items_below, dict_keys.
  induction d as [|[k v] d IH]; cbn; [constructor|].
  destruct (as_int v) as [q|]; [|exact IH].
  destruct (q <? t1) eqn:E1, (q <? t2) eqn:E2; cbn.
  - now constructor.
  - apply Z.ltb_lt in E1. apply Z.ltb_ge in E2. lia.
  - now constructor.
  - exact IH.
Qed.

Lemma items_below_keys t d : items_below t d `sublist_of` dict_keys d.
Proof.
  unfold items_below, dict_keys.
  induction d as [|[k v] d IH]; cbn; [constructor|].
  destruct (match as_int v with Some q => q <? t | None => false end); cbn;
    now constructor.
Qed.

(** Raising the threshold only adds items: the items low for a threshold
    are, in the same order, among the items low for any greater one, and
    those are among the keys, in the dict's order. *)
Theorem low_items_grow_with_threshold w t1 t2 :
  int_valued (stock_data w) = true → t1 <= t2 →
  ∃ low1 low2,
    check_low_items (VInt t1) w = (Return low1, w) ∧
    check_low_items (VInt t2) w = (Return low2, w) ∧
    low1 `sublist_of` low2 ∧ low2 `sublist_of` dict_keys (stock_data w).
Proof.
  intros Hint Hle.
  exists (items_below t1 (stock_data w)), (items_below t2 (stock_data w)).
  split; [|split; [|split]].
  - unfold check_low_items. run.
    now rewrite (low_items_int _ (VInt t1) t1 Hint eq_refl).
  - unfold check_low_items. run.
    now rewrite (low_items_int _ (VInt t2) t2 Hint eq_refl).
  - now apply items_below_mono.
  - apply items_below_keys.
Qed.

(** Thresholds 5 and 11 on the demo inventory. *)
Lemma low_items_grow_with_threshold_witness :
  ∃ low1 low2,
    check_low_items (VInt 5) (fresh demo_stock) = (Return low1, fresh demo_stock) ∧
    check_low_items (VInt 11) (fresh demo_stock) = (Return low2, fresh demo_stock) ∧
    low1 `sublist_of` low2 ∧ low2 `sublist_of` dict_keys demo_stock.
Proof.
  apply (low_items_grow_with_threshold (fresh demo_stock) 5 11);
    [reflexivity|discriminate].
Defined.

Lemma items_below_invariant t d :
  invariant d = true → t <= 1 → items_below t d = [].
Proof.
  unfold invariant, items_below, dict_keys, positive_quantity.
  intros Hinv Hle. induction d as [|[k v] d IH]; cbn in *; [reflexivity|].
  apply andb_prop in Hinv as [Hv Hd].
  destruct (as_int v) as [q|]; [|discriminate].
  apply Z.ltb_lt in Hv.
  assert ((q <? t) = false) as -> by (apply Z.ltb_ge; lia). auto.
Qed.

(** On an inventory whose quantities are all positive, a threshold of 1 or
    less reports nothing. *)
Theorem no_low_items_below_one w threshold t :
  invariant (stock_data w) = true → as_int threshold = Some t → t <= 1 →
  check_low_items threshold w = (Return [], w).
Proof.
  intros Hinv Ht Hle. unfold check_low_items. run.
  assert (int_valued (stock_data w) = true) as Hint.
  { revert Hinv. unfold invariant, int_valued, positive_quantity.
    generalize (stock_data w). intros d.
    induction d as [|[k v] d IH]; cbn; auto.
    intros H. apply andb_prop in H as [Hv Hd]. rewrite (IH Hd).
    destruct v; try discriminate; reflexivity. }
  rewrite (low_items_int _ _ _ Hint Ht).
  now rewrite (items_below_invariant t _ Hinv Hle).
Qed.

(** Threshold 1 on the demo inventory. *)
Lemma no_low_items_below_one_witness :
  check_low_items (VInt 1) (fresh demo_stock) = (Return [], fresh demo_stock).
Proof.
  apply (no_low_items_below_one (fresh demo_stock) (VInt 1) 1);
    [reflexivity|reflexivity|discriminate].
Defined.

(** ** [print_data] *)

Lemma print_data_exact w :
  renders_all (stock_data w) = true →
  print_data w = (Return tt, set_stdout (stdout w ++ report (stock_data w)) w).
Proof.
  intros Hr. unfold print_data, report. run. cbn [stock_data set_stdout].
  destruct (stock_data w) as [|kv d] eqn:E; cbn [truthy];
    cbv beta iota; rewrite (print_items_output _ _ Hr); cbn;
    repeat rewrite <- app_assoc; reflexivity.
Qed.

Lemma print_data_stops_at w d1 k v d2 :
  stock_data w = d1 ++ (k, v) :: d2 →
  renders_all d1 = true → renders v = false →
  print_data w =
    (Raise ValueError,
     set_stdout
       (stdout w ++
        [Lit (String "010" "--- Items Report ---")] :: map report_line d1)
       w).
Proof.
  intros Hd H1 H2. unfold print_data. run.
  cbn [stock_data set_stdout]. rewrite Hd.
  assert (truthy (VDict (d1 ++ (k, v) :: d2)) = true) as ->
    by now destruct d1.
  cbv beta iota. rewrite (print_items_stops d1 k v d2 _ H1 H2). cbn.
  repeat rewrite <- app_assoc. reflexivity.
Qed.

(** When every quantity renders, [print_data] prints the header, the notice
    that the inventory is empty exactly when it is, one line per item in the
    dict's order and the footer, returns normally and changes nothing but
    the output.  When one does not, having more than 4300 digits, it raises
    [ValueError] with the header and the lines of the items before the first
    such quantity printed, and no footer. *)
Theorem print_data_output w :
  (renders_all (stock_data w) = true →
   print_data w =
     (Return tt, set_stdout (stdout w ++ report (stock_data w)) w)) ∧
  (∀ d1 k v d2,
     stock_data w = d1 ++ (k, v) :: d2 →
     renders_all d1 = true → renders v = false →
     print_data w =
       (Raise ValueError,
        set_stdout
          (stdout w ++
           [Lit (String "010" "--- Items Report ---")] :: map report_line d1)
          w)).
Proof.
  split; [apply print_data_exact|apply print_data_stops_at].
Qed.

(** The report of the demo inventory, and the report that stops at the
    bananas. *)
Lemma print_data_output_witness :
  print_data (fresh demo_stock) =
    (Return tt, set_stdout (report demo_stock) (fresh demo_stock)) ∧
  print_data long_quantity_world =
    (Raise ValueError,
     set_stdout
       [[Lit (String "010" "--- Items Report ---")];
        report_line ("apple", VInt 10)] long_quantity_world).
Proof.
  split.
  - apply (proj1 (print_data_output (fresh demo_stock))). reflexivity.
  - apply (proj2 (print_data_output long_quantity_world)
             [("apple", VInt 10)] "banana" (VInt str_limit)
             [("cherry", VInt 1)]);
      [reflexivity|reflexivity|].
    apply int_fits_large. pose proof str_limit_pos. lia.
Defined.

(** ** What each function leaves alone *)

Lemma load_data_world w file :
  (load_data file w).2 = w ∨
  ∃ r, (load_data file w).2 = log_more r w.
Proof.
  assert (∃ o w', load_data file w = (o, w') ∧
                  (w' = w ∨ ∃ r, w' = log_more r w))
    as (o & w' & -> & H); [|exact H].
  unfold load_data, try_except. unfold mbind at 1, M_bind.
  destruct (read_file_cases w file) as [(content & -> & _) | [e ->]].
  - run. destruct (json_loads content) as [data|[]|]; cbn;
      do 2 eexists; (split; [reflexivity|]);
      first [left; reflexivity | right; eexists; reflexivity].
  - destruct e; cbn; do 2 eexists; (split; [reflexivity|]);
      first [left; reflexivity | right; eexists; reflexivity].
Qed.

Lemma save_data_world w file :
  ∃ fs, (save_data file w).2 = set_files fs w ∨
        ∃ r, (save_data file w).2 = log_more r (set_files fs w).
Proof.
  destruct (open_for_writing file w) as [[[]|e|] w1] eqn:Hopen.
  - rewrite save_data_opened by now rewrite Hopen.
    destruct (json_dump_ok (VDict (stock_data w))); cbn; eauto.
  - rewrite (save_data_refused w file e) by now rewrite Hopen.
    exists (files w). rewrite set_files_same.
    destruct (is_IOError e); cbn; eauto.
  - destruct (open_for_writing_cases w file) as [H | [e H]]; congruence.
Qed.

(** Only [save_data] touches the files, only [print_data] prints, only
    [add_item] appends to the caller's list, and only [add_item] and
    [remove_item] change the inventory: every other component of the world
    is the same after a call as before, whatever the arguments and whether
    or not the call raises. *)
Theorem calls_leave_the_rest_alone w item qty now threshold file :
  (files (add_item item qty now w).2 = files w ∧
   files (remove_item item qty w).2 = files w ∧
   files (get_qty item w).2 = files w ∧
   files (check_low_items threshold w).2 = files w ∧
   files (print_data w).2 = files w ∧
   files (load_data file w).2 = files w) ∧
  (stdout (add_item item qty now w).2 = stdout w ∧
   stdout (remove_item item qty w).2 = stdout w ∧
   stdout (get_qty item w).2 = stdout w ∧
   stdout (check_low_items threshold w).2 = stdout w ∧
   stdout (load_data file w).2 = stdout w ∧
   stdout (save_data file w).2 = stdout w) ∧
  (logs (remove_item item qty w).2 = logs w ∧
   logs (get_qty item w).2 = logs w ∧
   logs (check_low_items threshold w).2 = logs w ∧
   logs (print_data w).2 = logs w ∧
   logs (load_data file w).2 = logs w ∧
   logs (save_data file w).2 = logs w) ∧
  (stock_data (get_qty item w).2 = stock_data w ∧
   stock_data (check_low_items threshold w).2 = stock_data w ∧
   stock_data (print_data w).2 = stock_data w ∧
   stock_data (load_data file w).2 = stock_data w ∧
   stock_data (save_data file w).2 = stock_data w).
Proof.
  destruct (add_item_cases w item qty now) as (ra & wa & -> & Ha).
  destruct (remove_item_cases w item qty) as (wr & -> & Hr).
  rewrite get_qty_run, check_low_items_world.
  destruct (print_data_world w) as [out ->].
  assert (files (load_data file w).2 = files w ∧
          stdout (load_data file w).2 = stdout w ∧
          logs (load_data file w).2 = logs w ∧
          stock_data (load_data file w).2 = stock_data w) as (L1 & L2 & L3 & L4).
  { destruct (load_data_world w file) as [-> | [r ->]]; repeat split. }
  assert (stdout (save_data file w).2 = stdout w ∧
          logs (save_data file w).2 = logs w ∧
          stock_data (save_data file w).2 = stock_data w) as (S1 & S2 & S3).
  { destruct (save_data_world w file) as (fs & [-> | [r ->]]);
      repeat split. }
  cbn [snd]. repeat split; auto;
    try (inversion Ha; subst; reflexivity);
    try (inversion Hr; subst; reflexivity).
Qed.


(** ** [save_data] and [load_data] *)



(** Saving twice leaves the files as saving once does. *)
Theorem save_data_twice w file :
  files ((save_data file;; save_data file) w).2 = files (save_data file w).2.
Proof.
  unfold mbind, M_bind.
  destruct (open_for_writing_cases w file) as [H | [e H]].
  - rewrite (save_data_opened w) by now rewrite H.
    destruct (json_dump_ok (VDict (stock_data w))) eqn:Hok; [|reflexivity].
    destruct (open_for_writing_path w file) as (Hp & _); [now rewrite H|].
    rewrite save_data_opened.
    + cbn [stock_data log_more set_logging set_files]. rewrite Hok. cbn.
      apply insert_insert_eq.
    + eapply open_for_writing_file; [exact Hp|]. cbn.
      apply lookup_insert_eq.
  - rewrite (save_data_refused w file e) by now rewrite H.
    destruct (is_IOError e) eqn:He; [|reflexivity].
    rewrite (save_data_refused _ file e).
    + now rewrite He.
    + rewrite (open_for_writing_files _ w) by reflexivity. now rewrite H.
Qed.



(** ** [main] *)


























(** ** More on the two mutations and the query *)

(** Once [remove_item] has deleted an item, removing it again only logs
    the warning for a missing item: the inventory stays as the first
    removal left it. *)
Theorem remove_item_after_delete w name qty n old q :
  name ≠ "" → as_int qty = Some n →
  dict_lookup name (stock_data w) = Some old → as_int old = Some q →
  q - n <= 0 →
  ∃ w1, remove_item (VStr name) qty w = (Return tt, w1) ∧
        remove_item (VStr name) qty w1 =
          (Return tt, log_more (missing_item_warning name) w1).
Proof.
  intros Hname Hn Hl Hq Hle. eexists. split.
  - eapply remove_item_deletes; eauto.
  - apply remove_item_missing; auto.
    + apply isinstance_int_as_int. eauto.
    + cbn. apply dict_lookup_remove_eq.
Qed.

(** All the bananas of the demo inventory removed twice. *)
Lemma remove_item_after_delete_witness :
  ∃ w1, remove_item (VStr "banana") (VInt 3) (fresh demo_stock) =
          (Return tt, w1) ∧
        remove_item (VStr "banana") (VInt 3) w1 =
          (Return tt, log_more (missing_item_warning "banana") w1).
Proof.
  apply (remove_item_after_delete (fresh demo_stock) "banana" (VInt 3) 3
           (VInt 3) 3); [discriminate|reflexivity|reflexivity|reflexivity|].
  discriminate.
Defined.

(** [isinstance(qty, int)] lets [True] and [False] through: as a quantity
    [True] adds or removes one and [False] none, and what is stored is an
    [int]. *)
Theorem bool_quantity_counts w name b old q now :
  name ≠ "" →
  dict_lookup name (stock_data w) = Some old → as_int old = Some q →
  dict_lookup name (stock_data (add_item (VStr name) (VBool b) now w).2) =
    Some (VInt (q + (if b then 1 else 0))) ∧
  (0 < q - (if b then 1 else 0) →
   dict_lookup name (stock_data (remove_item (VStr name) (VBool b) w).2) =
     Some (VInt (q - (if b then 1 else 0)))).
Proof.
  intros Hname Hl Hq. split.
  - rewrite (add_item_adds w name (VBool b) (if b then 1 else 0) q now);
      auto.
    + cbn. apply dict_lookup_store_eq.
    + unfold stored. now rewrite Hl.
  - intros Hpos.
    rewrite (remove_item_reduces w name (VBool b) (if b then 1 else 0) old q);
      auto.
    cbn. apply dict_lookup_store_eq.
Qed.

(** [True] apples added to the demo inventory. *)
Lemma bool_quantity_counts_witness :
  dict_lookup "apple"
    (stock_data (add_item (VStr "apple") (VBool true) "now"
                   (fresh demo_stock)).2) = Some (VInt 11).
Proof.
  apply (proj1 (bool_quantity_counts (fresh demo_stock) "apple" true (VInt 10)
                  10 "now" ltac:(discriminate) eq_refl eq_refl)).
Defined.

Lemma py_lt_not_int v threshold t :
  as_int v = None → as_int threshold = Some t →
  py_lt v threshold = Raise TypeError.
Proof.
  intros Hv Ht. destruct v, threshold; try discriminate; reflexivity.
Qed.

Lemma low_items_not_int d threshold t :
  int_valued d = false → as_int threshold = Some t →
  low_items d threshold = Raise TypeError.
Proof.
  intros Hd Ht. unfold int_valued in Hd.
  induction d as [|[k v] d IH]; cbn in *; [discriminate|].
  destruct (as_int v) as [q|] eqn:Hq.
  - rewrite (py_lt_int v threshold q t Hq Ht). cbn.
    assert (isinstance_int v = true) as Hv
      by (apply isinstance_int_as_int; eauto).
    rewrite Hv in Hd. cbn in Hd. now rewrite (IH Hd).
  - now rewrite (py_lt_not_int v threshold t Hq Ht).
Qed.

(** With an integer threshold, one quantity that is not an integer, anywhere
    in the inventory, makes [check_low_items] raise [TypeError] instead of
    returning the items that are low. *)
Theorem check_low_items_needs_integers w threshold t :
  as_int threshold = Some t → int_valued (stock_data w) = false →
  check_low_items threshold w = (Raise TypeError, w).
Proof.
  intros Ht Hd. unfold check_low_items. run.
  now rewrite (low_items_not_int _ _ _ Hd Ht).
Qed.

(** Bananas low, but the apples loaded with a string as their quantity. *)
Lemma check_low_items_needs_integers_witness :
  check_low_items default_threshold
    (fresh [("banana", VInt 3); ("apple", VStr "ten")]) =
    (Raise TypeError, fresh [("banana", VInt 3); ("apple", VStr "ten")]).
Proof.
  apply (check_low_items_needs_integers
           (fresh [("banana", VInt 3); ("apple", VStr "ten")])
           default_threshold 5); reflexivity.
Defined.
